(** * Staff management page: data loader, mutation gateway, search filter

    A shallow embedding of the [StaffManagement] component: its view-model
    state, the handlers [fetchData], [handleChange], [handleSubmit],
    [handleEdit], [handleDelete], [resetForm], the derived list
    [filteredStaff], and the attributes of the form controls the handlers
    are wired to.  JavaScript objects are finite maps from property names to
    values, handlers are programs of a small state-and-exception monad over a
    world made of the component state, the backing store and the effects a
    user can see. *)

From stdpp Require Import gmap strings stringmap list fin_maps.
From Stdlib Require Import Ascii NArith.

Open Scope string_scope.
Open Scope nat_scope.
Open Scope list_scope.

(** ** Values, objects, exceptions *)

(** A field value of a stored document.  Strings are sequences of code
    units below 256, one [ascii] per code unit; [VNull] is the value of a
    field that holds no string.  A property that is absent from an object
    reads as [None] (JavaScript's [undefined]). *)
Inductive value :=
| VStr (s : string)
| VNull.

#[global] Instance value_eq_dec : EqDecision value.
Proof. solve_decision. Defined.

Abbreviation record := (gmap string value).

Inductive exn :=
| TypeError
| FirebaseError.

#[global] Instance exn_eq_dec : EqDecision exn.
Proof. solve_decision. Defined.

(** How an evaluation ends: with a value, or with an exception thrown. *)
Inductive outcome (A : Type) :=
| Done (a : A)
| Thrown (e : exn).
Arguments Done {A} a.
Arguments Thrown {A} e.

(** ** Strings *)

Module Str.

(** [String.prototype.toLowerCase] on one code unit below 256: the
    letters A-Z and the Latin-1 capitals U+00C0-U+00DE (U+00D7, the
    multiplication sign, apart) move up by 32. *)
Definition lowerChar (c : ascii) : ascii :=
  let n := N_of_ascii c in
  if ((65 <=? n) && (n <=? 90) || (192 <=? n) && (n <=? 222) && negb (n =? 215))%N
  then ascii_of_N (n + 32)
  else c.

Fixpoint toLowerCase (s : string) : string :=
  match s with
  | EmptyString => EmptyString
  | String c s' => String (lowerChar c) (toLowerCase s')
  end.

Fixpoint startsWith (s t : string) : bool :=
  match t, s with
  | EmptyString, _ => true
  | String _ _, EmptyString => false
  | String b t', String a s' => if Ascii.eqb a b then startsWith s' t' else false
  end.

(** [s.includes(t)]: [t] occurs in [s] at some position. *)
Fixpoint includes (s t : string) : bool :=
  startsWith s t ||
  match s with
  | EmptyString => false
  | String _ s' => includes s' t
  end.

Fixpoint repeat (c : ascii) (n : nat) : string :=
  match n with
  | O => EmptyString
  | S n' => String c (repeat c n')
  end.

End Str.

(** ** Arrays with callbacks that may throw *)

Fixpoint Array_some {A} (p : A -> outcome bool) (l : list A) : outcome bool :=
  match l with
  | [] => Done false
  | x :: l' =>
      match p x with
      | Thrown e => Thrown e
      | Done true => Done true
      | Done false => Array_some p l'
      end
  end.

Fixpoint Array_filter {A} (p : A -> outcome bool) (l : list A) : outcome (list A) :=
  match l with
  | [] => Done []
  | x :: l' =>
      match p x with
      | Thrown e => Thrown e
      | Done b =>
          match Array_filter p l' with
          | Thrown e => Thrown e
          | Done out => Done (if b then x :: out else out)
          end
      end
  end.

(** ** The search filter *)

(** [field.toLowerCase()] on a property read: only a string has the
    method. *)
Definition call_toLowerCase (field : option value) : outcome string :=
  match field with
  | Some (VStr s) => Done (Str.toLowerCase s)
  | _ => Thrown TypeError
  end.

Definition fieldMatches (searchQuery : string) (field : option value) : outcome bool :=
  match call_toLowerCase field with
  | Thrown e => Thrown e
  | Done s => Done (Str.includes s (Str.toLowerCase searchQuery))
  end.

Definition filteredStaff (staff : list record) (searchQuery : string)
  : outcome (list record) :=
  Array_filter
    (fun r : record =>
       Array_some (fieldMatches searchQuery)
         [r !! "firstName"; r !! "lastName"; r !! "position";
          r !! "department"; r !! "course"])
    staff.

(** ** The backing store *)

(** A collection holds documents, each a field map under its identifier;
    reading a collection lists them in the store's order. *)
Abbreviation collection := (gmap string record).

Record Store := mkStore {
  Staff : collection;
  Departments : collection;
  Courses : gmap string collection   (* Departments/{id}/Courses, by id *)
}.

Inductive collectionRef :=
| StaffCol
| DepartmentsCol
| CoursesCol (departmentId : string).

#[global] Instance collectionRef_eq_dec : EqDecision collectionRef.
Proof. solve_decision. Defined.

(** What [collection(db, ...)] and [doc(db, ...)] return. *)
Inductive reference :=
| ColRef (c : collectionRef)
| DocRef (c : collectionRef) (id : string).

Inductive call :=
| GetDocs (c : collectionRef)
| AddDoc (c : collectionRef) (data : record)
| UpdateDoc (c : collectionRef) (id : string) (data : record)
| DeleteDoc (c : collectionRef) (id : string).

Module Firestore.

Definition read (c : collectionRef) (s : Store) : collection :=
  match c with
  | StaffCol => Staff s
  | DepartmentsCol => Departments s
  | CoursesCol d => default ∅ (Courses s !! d)
  end.

Definition write (c : collectionRef) (m : collection) (s : Store) : Store :=
  match c with
  | StaffCol => mkStore m (Departments s) (Courses s)
  | DepartmentsCol => mkStore (Staff s) m (Courses s)
  | CoursesCol d => mkStore (Staff s) (Departments s) (<[d := m]> (Courses s))
  end.

(** Modelled from the spec: the identifier the store assigns on create
    (section 6, "assigns and returns a new identifier"); the store client
    is an external collaborator, no code of it is in the repository. *)
Definition autoId (m : collection) : string := fresh_string "doc" m.

(** Modelled from the spec: read-all on a collection or a nested
    sub-collection (section 6) yields its (identifier, field map) pairs in
    the store's order; a sub-collection that was never written is empty. *)
Definition getDocs (c : collectionRef) (s : Store) : list (string * record) :=
  map_to_list (read c s).

(** Modelled from the spec: create in a collection with a field map
    (section 6) assigns and returns a new identifier. *)
Definition addDoc (c : collectionRef) (data : record) (s : Store) : string * Store :=
  let id := autoId (read c s) in
  (id, write c (<[id := data]> (read c s)) s).

(** Modelled from the spec: update by identifier (section 6) replaces the
    listed fields and errors if the identifier is absent. *)
Definition updateDoc (c : collectionRef) (id : string) (data : record) (s : Store)
  : option Store :=
  match read c s !! id with
  | Some old => Some (write c (<[id := data ∪ old]> (read c s)) s)
  | None => None
  end.

(** Modelled from the spec: delete by identifier (section 6) removes the
    record and errors if the identifier is absent. *)
Definition deleteDoc (c : collectionRef) (id : string) (s : Store) : option Store :=
  match read c s !! id with
  | Some _ => Some (write c (delete id (read c s)) s)
  | None => None
  end.

End Firestore.

(** ** Component state and the world around it *)

Record View := mkView {
  staff : list record;
  formData : record;
  departments : list record;
  allCourses : gmap string (list record);
  selectedStaff : option record;
  searchQuery : string
}.

(** What a handler does that can be seen from outside, in order. *)
Inductive event :=
| Call (c : call)                       (* a request sent to the store *)
| Alert (title text icon : string)      (* Swal.fire(title, text, icon) *)
| Ask (title text : string)             (* Swal.fire with a cancel button *)
| ConsoleError (msg : string)
| ScrollTop.

(** [faults] and [answers] script the collaborators: for each store request
    still to come whether it is rejected, for each confirmation dialog still
    to come whether the user confirms (an exhausted script answers no).
    [frames] lists the component state on screen each time a handler was
    suspended at an [await]: between two such points the handler runs
    without interruption, at each of them the page renders what has been
    set so far. *)
Record World := mkWorld {
  view : View;
  db : Store;
  faults : list bool;
  answers : list bool;
  trace : list event;
  frames : list View
}.

Definition nextFault (w : World) : bool := hd false (faults w).
Definition nextAnswer (w : World) : bool := hd false (answers w).

Definition M (A : Type) : Type := World -> outcome A * World.

Definition ret {A} (a : A) : M A := fun w => (Done a, w).

Definition throw {A} (e : exn) : M A := fun w => (Thrown e, w).

Definition bind {A B} (m : M A) (k : A -> M B) : M B :=
  fun w =>
    match m w with
    | (Done a, w') => k a w'
    | (Thrown e, w') => (Thrown e, w')
    end.

Definition try_catch {A} (body : M A) (handler : exn -> M A) : M A :=
  fun w =>
    match body w with
    | (Done a, w') => (Done a, w')
    | (Thrown e, w') => handler e w'
    end.

#[global] Instance M_ret : MRet M := @ret.
#[global] Instance M_bind : MBind M := fun A B k m => bind m k.

Definition readState : M View := fun w => (Done (view w), w).

Definition setState (f : View -> View) : M unit :=
  fun w => (Done tt, mkWorld (f (view w)) (db w) (faults w) (answers w) (trace w) (frames w)).

Definition emit (e : event) : M unit :=
  fun w => (Done tt, mkWorld (view w) (db w) (faults w) (answers w) (trace w ++ [e]) (frames w)).

(** The handler is suspended: the page shows the current state. *)
Definition suspend : M unit :=
  fun w => (Done tt, mkWorld (view w) (db w) (faults w) (answers w) (trace w) (frames w ++ [view w])).

(** The store settles a request: it rejects it, as the script says or as
    [op] does, or performs [op]. *)
Definition settle {A} (op : Store -> option (A * Store)) : M A :=
  fun w =>
    let w' := mkWorld (view w) (db w) (tl (faults w)) (answers w) (trace w) (frames w) in
    if nextFault w then (Thrown FirebaseError, w')
    else match op (db w) with
         | Some (a, s) =>
             (Done a, mkWorld (view w) s (tl (faults w)) (answers w) (trace w) (frames w))
         | None => (Thrown FirebaseError, w')
         end.

(** [await] of a store request: the request is logged, the handler is
    suspended, the store settles the request. *)
Definition request {A} (c : call) (op : Store -> option (A * Store)) : M A :=
  emit (Call c);; suspend;; settle op.

Definition putStaff (x : list record) (v : View) : View :=
  mkView x (formData v) (departments v) (allCourses v) (selectedStaff v) (searchQuery v).
Definition putFormData (x : record) (v : View) : View :=
  mkView (staff v) x (departments v) (allCourses v) (selectedStaff v) (searchQuery v).
Definition putDepartments (x : list record) (v : View) : View :=
  mkView (staff v) (formData v) x (allCourses v) (selectedStaff v) (searchQuery v).
Definition putAllCourses (x : gmap string (list record)) (v : View) : View :=
  mkView (staff v) (formData v) (departments v) x (selectedStaff v) (searchQuery v).
Definition putSelectedStaff (x : option record) (v : View) : View :=
  mkView (staff v) (formData v) (departments v) (allCourses v) x (searchQuery v).
Definition putSearchQuery (x : string) (v : View) : View :=
  mkView (staff v) (formData v) (departments v) (allCourses v) (selectedStaff v) x.

Definition setStaff (x : list record) : M unit := setState (putStaff x).

(** [setFormData] is called with a value and with a function of the previous
    value; a value is passed as the constant function. *)
Definition setFormData (f : record -> record) : M unit :=
  setState (fun v => putFormData (f (formData v)) v).
Definition setDepartments (x : list record) : M unit := setState (putDepartments x).
Definition setAllCourses (x : gmap string (list record)) : M unit :=
  setState (putAllCourses x).
Definition setSelectedStaff (x : option record) : M unit := setState (putSelectedStaff x).
Definition setSearchQuery (x : string) : M unit := setState (putSearchQuery x).

(** ** The store client and the dialogs, as the handlers call them *)

(** String coercion, as in a template literal or a property key. *)
Definition ToString (v : option value) : string :=
  match v with
  | Some (VStr s) => s
  | Some VNull => "null"
  | None => "undefined"
  end.

Definition truthy (v : option value) : bool :=
  match v with
  | Some (VStr s) => negb (String.eqb s "")
  | _ => false
  end.

(** [collection(db, `Departments/${id}/Courses`)]: the client rejects a
    path with an empty segment.  Identifiers are opaque, they hold no path
    separator. *)
Definition coursesCollection (id : string) : M collectionRef :=
  if decide (id = "") then throw FirebaseError else mret (CoursesCol id).

(** [doc(db, 'Staff', id)]: the client takes a non-empty string for the
    identifier and throws on anything else. *)
Definition doc (c : collectionRef) (id : option value) : M reference :=
  match id with
  | Some (VStr i) => if decide (i = "") then throw FirebaseError else mret (DocRef c i)
  | _ => throw TypeError
  end.

Definition getDocs (c : collectionRef) : M (list (string * record)) :=
  request (GetDocs c) (fun s => Some (Firestore.getDocs c s, s)).

Definition addDoc (r : reference) (data : record) : M string :=
  match r with
  | ColRef c => request (AddDoc c data) (fun s => Some (Firestore.addDoc c data s))
  | DocRef _ _ => throw FirebaseError
  end.

Definition updateDoc (r : reference) (data : record) : M unit :=
  match r with
  | DocRef c i =>
      request (UpdateDoc c i data)
        (fun s => (fun s' => (tt, s')) <$> Firestore.updateDoc c i data s)
  | ColRef _ => throw FirebaseError
  end.

Definition deleteDoc (r : reference) : M unit :=
  match r with
  | DocRef c i =>
      request (DeleteDoc c i) (fun s => (fun s' => (tt, s')) <$> Firestore.deleteDoc c i s)
  | ColRef _ => throw FirebaseError
  end.

Definition Swal_fire (title text icon : string) : M unit := emit (Alert title text icon).

(** [await Swal.fire({title, text, icon: 'warning', showCancelButton: true,
    ...})], read at [isConfirmed]. *)
Definition Swal_confirm (title text : string) : M bool :=
  emit (Ask title text);; suspend;;
  (fun w => (Done (nextAnswer w),
             mkWorld (view w) (db w) (faults w) (tl (answers w)) (trace w) (frames w))) : M bool.

Definition console_error (msg : string) : M unit := emit (ConsoleError msg).

Fixpoint forOf {A S} (l : list A) (body : A -> S -> M S) (s : S) : M S :=
  match l with
  | [] => mret s
  | x :: l' => s' ← body x s; forOf l' body s'
  end.

(** ** The component *)

Definition GENDERS : list string := ["Male"; "Female"; "Other"].
Definition POSITIONS : list string :=
  ["Teacher"; "Course Head"; "Department Head"; "Registrar"; "Admin"].

Definition emptyForm : record :=
  list_to_map
    [("firstName", VStr ""); ("lastName", VStr ""); ("gender", VStr "");
     ("address", VStr ""); ("mobileNumber", VStr ""); ("position", VStr "");
     ("department", VStr ""); ("course", VStr "")].

Definition initialView : View := mkView [] emptyForm [] ∅ None "".

(** [{ id: doc.id, ...doc.data() }]: a field named id of the document
    comes after the identifier and replaces it. *)
Definition snapshotRecord (d : string * record) : record :=
  d.2 ∪ {["id" := VStr d.1]}.

Definition fetchCourses (department : record) (coursesByDept : gmap string (list record))
  : M (gmap string (list record)) :=
  c ← coursesCollection (ToString (department !! "id"));
  courseSnapshot ← getDocs c;
  mret (<[ToString (department !! "id") := map snapshotRecord courseSnapshot]> coursesByDept).

(** The [try] block of [fetchData]. *)
Definition fetchBody : M unit :=
  staffDocs ← getDocs StaffCol;
  setStaff (map snapshotRecord staffDocs);;
  deptSnapshot ← getDocs DepartmentsCol;
  let departments := map snapshotRecord deptSnapshot in
  setDepartments departments;;
  coursesByDept ← forOf departments fetchCourses ∅;
  setAllCourses coursesByDept.

Definition fetchData : M unit :=
  try_catch fetchBody
    (fun error =>
       console_error "Error fetching data: ";;
       Swal_fire "Error!" "There was an error fetching the data." "error").

Definition handleChange (field value : string) : M unit :=
  setFormData (fun prev => <[field := VStr value]> prev).

Definition resetForm : M unit :=
  setFormData (fun _ => emptyForm);;
  setSelectedStaff None.

(** The handler works on the [selectedStaff] and [formData] of the render
    it was created in. *)
Definition handleSubmit : M unit :=
  v ← readState;
  staffRef ← match selectedStaff v with
             | Some s => doc StaffCol (s !! "id")
             | None => mret (ColRef StaffCol)
             end;
  try_catch
    (match selectedStaff v with
     | Some _ => updateDoc staffRef (formData v)
     | None => addDoc staffRef (formData v);; mret tt
     end;;
     Swal_fire "Success!"
       ("Staff has been "
        +:+ match selectedStaff v with Some _ => "updated" | None => "added" end
        +:+ ".")
       "success";;
     resetForm;;
     fetchData)
    (fun error =>
       console_error "Error saving staff data: ";;
       Swal_fire "Error!" "There was an error saving the staff data." "error").

Definition handleEdit (staffMember : record) : M unit :=
  setFormData (fun _ => staffMember);;
  setSelectedStaff (Some staffMember);;
  emit ScrollTop.

Definition handleDelete (staffMember : record) : M unit :=
  confirmed ← Swal_confirm "Are you sure?"
                "You will not be able to recover this staff member!";
  if confirmed : bool then
    try_catch
      (ref ← doc StaffCol (staffMember !! "id");
       deleteDoc ref;;
       Swal_fire "Deleted!" "Staff member has been deleted." "success";;
       fetchData)
      (fun error =>
         console_error "Error deleting staff member: ";;
         Swal_fire "Error!" "There was an error deleting the staff member." "error")
  else mret tt.

(** ** The form controls *)

(** The options of the department selector and of the course selector after
    their placeholder option, by value. *)
Definition departmentOptions (v : View) : list string :=
  map (fun department : record => ToString (department !! "id")) (departments v).

Definition courseOptions (v : View) : list string :=
  map (fun course : record => ToString (course !! "id"))
    (default [] (allCourses v !! ToString (formData v !! "department"))).

(** [disabled={!formData.department}] *)
Definition courseDisabled (v : View) : bool := negb (truthy (formData v !! "department")).

(** What a text input shows for a property of [formData]: its string, and
    nothing for a missing or null property. *)
Definition inputValue (v : option value) : string :=
  match v with
  | Some (VStr s) => s
  | _ => ""
  end.

(** What a selector shows: the option whose value is the property, and the
    placeholder (of value "") when there is none. *)
Definition selectValue (options : list string) (v : option value) : string :=
  if bool_decide (inputValue v ∈ options) then inputValue v else "".

Definition filled (s : string) : bool := negb (String.eqb s "").

(** The controls marked [required]: the four text inputs and the selectors
    of gender, position and department.  The course selector is not. *)
Definition checkValidity (v : View) : bool :=
  forallb (fun field => filled (inputValue (formData v !! field)))
    ["firstName"; "lastName"; "address"; "mobileNumber"]
  && filled (selectValue GENDERS (formData v !! "gender"))
  && filled (selectValue POSITIONS (formData v !! "position"))
  && filled (selectValue (departmentOptions v) (formData v !! "department")).

(** [<form onSubmit={handleSubmit}>]: pressing the submit button runs the
    handler only when every required control has a value. *)
Definition submitForm : M unit :=
  v ← readState;
  if checkValidity v then handleSubmit else mret tt.

(** ** Vocabulary of the properties *)

Definition searchFields : list string :=
  ["firstName"; "lastName"; "position"; "department"; "course"].


Definition hasString (r : record) (k : string) : Prop := ∃ s, r !! k = Some (VStr s).

(** A staff record as the data model has it: the fields the filter reads
    are strings. *)
Definition searchable (r : record) : Prop := ∀ k, k ∈ searchFields → hasString r k.

(** [q] occurs in [s] up to the case of the letters. *)
Definition containsIgnoringCase (s q : string) : Prop :=
  ∃ a u b, s = a +:+ u +:+ b ∧ Str.toLowerCase u = Str.toLowerCase q.

Definition matchesQuery (q : string) (r : record) : Prop :=
  ∃ k s, k ∈ searchFields ∧ r !! k = Some (VStr s) ∧ containsIgnoringCase s q.

(** [Selects P l out]: [out] is [l] without the elements that fail [P], in
    the order of [l]. *)
Inductive Selects {A} (P : A -> Prop) : list A -> list A -> Prop :=
| Selects_nil : Selects P [] []
| Selects_keep x l out : P x -> Selects P l out -> Selects P (x :: l) (x :: out)
| Selects_skip x l out : ¬ P x -> Selects P l out -> Selects P (x :: l) out.

(** A query longer than every string the filter reads in [R]. *)
Definition fieldLength (r : record) (k : string) : nat :=
  String.length (inputValue (r !! k)).

Definition longQuery (R : list record) : string :=
  Str.repeat "a" (S (sum_list (map (fun r => sum_list (map (fieldLength r) searchFields)) R))).

(** What a complete load reads from a store. *)
Definition departmentKey (department : record) : string := ToString (department !! "id").

Definition loadedStaff (s : Store) : list record :=
  map snapshotRecord (Firestore.getDocs StaffCol s).

Definition loadedDepartments (s : Store) : list record :=
  map snapshotRecord (Firestore.getDocs DepartmentsCol s).

Definition loadedCoursesOf (s : Store) (key : string) : list record :=
  map snapshotRecord (Firestore.getDocs (CoursesCol key) s).

Definition loadedCourses (s : Store) : gmap string (list record) :=
  foldl (fun acc d => <[departmentKey d := loadedCoursesOf s (departmentKey d)]> acc)
    ∅ (loadedDepartments s).

(** Every department of the store can be asked for its courses. *)
Definition departmentsKeyed (s : Store) : Prop :=
  Forall (fun d => departmentKey d ≠ "") (loadedDepartments s).


Definition loadSucceeds (w : World) : Prop := (fetchBody w).1 = Done tt.

(** The world once a store request has been sent and settled with no
    change to the store. *)
Definition sent (c : call) (w : World) : World :=
  mkWorld (view w) (db w) (tl (faults w)) (answers w)
    (trace w ++ [Call c]) (frames w ++ [view w]).

Definition withDb (s : Store) (w : World) : World :=
  mkWorld (view w) s (faults w) (answers w) (trace w) (frames w).

Definition withView (v : View) (w : World) : World :=
  mkWorld v (db w) (faults w) (answers w) (trace w) (frames w).

Definition logged (es : list event) (w : World) : World :=
  mkWorld (view w) (db w) (faults w) (answers w) (trace w ++ es) (frames w).

(** The world once the confirmation dialog has been answered. *)
Definition asked (title text : string) (w : World) : World :=
  mkWorld (view w) (db w) (faults w) (tl (answers w))
    (trace w ++ [Ask title text]) (frames w ++ [view w]).

Definition resetView (v : View) : View := putSelectedStaff None (putFormData emptyForm v).

(** The world once the courses of the first [n] departments of [ds] have
    been requested. *)
Definition coursesRequested (n : nat) (ds : list record) (w : World) : World :=
  mkWorld (view w) (db w) (drop n (faults w)) (answers w)
    (trace w ++ map (fun d => Call (GetDocs (CoursesCol (departmentKey d)))) (take n ds))
    (frames w ++ replicate n (view w)).

Definition collectCourses (s : Store) (ds : list record) (acc : gmap string (list record))
  : gmap string (list record) :=
  foldl (fun acc d => <[departmentKey d := loadedCoursesOf s (departmentKey d)]> acc) acc ds.

(** The state on screen while the load goes on: once the staff list is
    set, once the departments are set, and at the end. *)
Definition staffLoaded (w : World) : View := putStaff (loadedStaff (db w)) (view w).
Definition departmentsLoaded (w : World) : View :=
  putDepartments (loadedDepartments (db w)) (staffLoaded w).
Definition allLoaded (w : World) : View :=
  putAllCourses (loadedCourses (db w)) (departmentsLoaded w).

(** The world once the staff and the departments have been fetched. *)
Definition staffFetched (w : World) : World :=
  withView (staffLoaded w) (sent (GetDocs StaffCol) w).
Definition departmentsFetched (w : World) : World :=
  withView (departmentsLoaded w) (sent (GetDocs DepartmentsCol) (staffFetched w)).

Definition fetchError : list event :=
  [ConsoleError "Error fetching data: ";
   Alert "Error!" "There was an error fetching the data." "error"].

Definition saveError : list event :=
  [ConsoleError "Error saving staff data: ";
   Alert "Error!" "There was an error saving the staff data." "error"].

Definition deleteError : list event :=
  [ConsoleError "Error deleting staff member: ";
   Alert "Error!" "There was an error deleting the staff member." "error"].

Definition deletePrompt : event :=
  Ask "Are you sure?" "You will not be able to recover this staff member!".

(** What the store does with a request when it accepts it; [None] when it
    rejects it, by its own rules or because the script says so. *)
Definition perform (c : call) (s : Store) : option Store :=
  match c with
  | GetDocs _ => Some s
  | AddDoc col data => Some (Firestore.addDoc col data s).2
  | UpdateDoc col i data => Firestore.updateDoc col i data s
  | DeleteDoc col i => Firestore.deleteDoc col i s
  end.

Definition settles (c : call) (w : World) : option Store :=
  if nextFault w then None else perform c (db w).

(** The world after a save or a delete that the store accepted, at the
    point where the reload starts. *)
Definition saved (verb : string) (s : Store) (c : call) (w : World) : World :=
  withView (resetView (view w))
    (logged [Alert "Success!" ("Staff has been " +:+ verb +:+ ".") "success"]
       (withDb s (sent c w))).

Definition deleted (s : Store) (c : call) (w : World) : World :=
  logged [Alert "Deleted!" "Staff member has been deleted." "success"]
    (withDb s (sent c (asked "Are you sure?"
                         "You will not be able to recover this staff member!" w))).

(** The editing target names a document: it is null, or its id is a
    non-empty string. *)
Definition targetId (w : World) : option (option string) :=
  match selectedStaff (view w) with
  | None => Some None
  | Some s =>
      match s !! "id" with
      | Some (VStr i) => if decide (i = "") then None else Some (Some i)
      | _ => None
      end
  end.

(** The store call of a save, for a target that names no document (create)
    or the document [i] (update), and the word of its success message. *)
Definition saveCall (w : World) (target : option string) : call :=
  match target with
  | None => AddDoc StaffCol (formData (view w))
  | Some i => UpdateDoc StaffCol i (formData (view w))
  end.

Definition saveVerb (target : option string) : string :=
  match target with
  | None => "added"
  | Some _ => "updated"
  end.





(** The form after a run of edits typed into its controls. *)
Definition typeAll (edits : list (string * string)) : M unit :=
  forOf edits (fun e (_ : unit) => handleChange e.1 e.2) tt.

Definition applyEdits (edits : list (string * string)) (data : record) : record :=
  foldl (fun m e => <[e.1 := VStr e.2]> m) data edits.

Definition formFields : list string :=
  ["firstName"; "lastName"; "gender"; "address"; "mobileNumber"; "position";
   "department"; "course"].

(** ** Sample data *)

Module Sample.

Definition fields (l : list (string * string)) : record :=
  list_to_map (prod_map id VStr <$> l).

Definition ann : record :=
  fields [("firstName", "Ann"); ("lastName", "Lee"); ("gender", "Female");
          ("address", "1 Main St"); ("mobileNumber", "555");
          ("position", "Teacher"); ("department", "D1"); ("course", "C1")].

(** A record with no course field. *)
Definition bob : record :=
  fields [("firstName", "Bob"); ("lastName", "Ray"); ("position", "Admin");
          ("department", "D2")].

(** Ann's form with the course left at its placeholder. *)
Definition annNoCourse : record := <["course" := VStr ""]> ann.

(** One staff member, two departments; D1 has one course, D2 none. *)
Definition store : Store :=
  mkStore {["s1" := ann]}
    {["D1" := fields [("name", "Board Courses")];
      "D2" := fields [("name", "Non-Board Courses")]]}
    {["D1" := {["C1" := fields [("name", "Nursing")]]}]}.

(** The page before its first load, with every request to succeed. *)
Definition fresh : World := mkWorld initialView store [] [] [] [].

(** The same, with the second request (Departments) to be rejected. *)
Definition departmentsDown : World := mkWorld initialView store [false; true] [] [] [].

(** The page after a complete load. *)
Definition loaded : World := mkWorld (allLoaded fresh) store [] [] [] [].

Definition row : record := snapshotRecord ("s1", ann).

(** The loaded page with Ann's data typed into the empty form, no course
    chosen. *)
Definition typed : World :=
  mkWorld (putFormData annNoCourse (view loaded)) store [] [] [] [].

(** The loaded page after a click on the edit button of the row. *)
Definition editing : World :=
  mkWorld (putSelectedStaff (Some row) (putFormData row (view loaded))) store [] [] [] [].

(** The loaded page with a user who will confirm the next dialog. *)
Definition confirming : World :=
  mkWorld (view loaded) store [] [true] [] [].


End Sample.

(** ** More vocabulary *)

(** The last value typed into the control of field [k], if any. *)
Fixpoint lastTyped (k : string) (edits : list (string * string)) : option string :=
  match edits with
  | [] => None
  | e :: rest =>
      match lastTyped k rest with
      | Some v => Some v
      | None => if decide (e.1 = k) then Some e.2 else None
      end
  end.

(** Two records read alike by the filter. *)
Definition sameSearchFields (r r' : record) : Prop :=
  ∀ k, k ∈ searchFields → r !! k = r' !! k.

(** The identifier is one the client accepts. *)
Definition usableId (v : option value) : Prop := ∃ i, v = Some (VStr i) ∧ i ≠ "".

(** The rows of the documents of a collection. *)
Definition rowsOf (m : gmap string record) : list record :=
  map snapshotRecord (map_to_list m).

(** The world with another script of store faults. *)
Definition withFaults (fs : list bool) (w : World) : World :=
  mkWorld (view w) (db w) fs (answers w) (trace w) (frames w).

(** ** A session on the staff page *)

(** What the user can do on the page once it is mounted: type [value] into
    the control of a field of the form, type into the search box, press the
    submit or the reset button of the form, press the edit or the delete
    button of the [n]-th row of the staff list. *)
Inductive action :=
| TypeIn (field value : string)
| Search (query : string)
| PressSubmit
| PressReset
| PressEdit (n : nat)
| PressDelete (n : nat).

(** The handler the page has wired to each of them; a button of a row that
    does not exist cannot be pressed. *)
Definition dispatch (a : action) : M unit :=
  match a with
  | TypeIn field value => handleChange field value
  | Search query => setSearchQuery query
  | PressSubmit => submitForm
  | PressReset => resetForm
  | PressEdit n =>
      v ← readState;
      match staff v !! n with
      | Some row => handleEdit row
      | None => mret tt
      end
  | PressDelete n =>
      v ← readState;
      match staff v !! n with
      | Some row => handleDelete row
      | None => mret tt
      end
  end.

(** The actions one after the other; an exception that escapes a handler
    ends that handler only. *)
Fixpoint session (actions : list action) (w : World) : World :=
  match actions with
  | [] => w
  | a :: rest => session rest (dispatch a w).2
  end.

(** The page at mount, [useEffect(() => { fetchData(); }, [])], on a store
    and scripts of faults and answers. *)
Definition mount (s : Store) (fs answers : list bool) : World :=
  (fetchData (mkWorld initialView s fs answers [] [])).2.

(** A field map with a string in each of the eight fields of the form. *)
Definition formShaped (data : record) : Prop := ∀ k, k ∈ formFields → hasString data k.

(** Documents, form and rows are all of that shape. *)
Definition shaped (w : World) : Prop :=
  map_Forall (fun _ data => formShaped data) (Staff (db w))
  ∧ formShaped (formData (view w))
  ∧ Forall formShaped (staff (view w)).

(** ** The schedule page *)

Module Schedule.

(** The state of [ScheduleManagement] and the world around it: the store,
    the script of its faults, what the page did, the list on screen each
    time the load was suspended at an [await], and the routes pushed. *)
Record Page := mkPage {
  courses : list record;
  store : Store;
  faults : list bool;
  trace : list event;
  frames : list (list record);
  routes : list string
}.

Definition P (A : Type) : Type := Page -> outcome A * Page.

#[global] Instance P_ret : MRet P := fun A a p => (Done a, p).

#[global] Instance P_bind : MBind P :=
  fun A B k m p =>
    match m p with
    | (Done a, p') => k a p'
    | (Thrown e, p') => (Thrown e, p')
    end.

Definition try_catch {A} (body : P A) (handler : exn -> P A) : P A :=
  fun p =>
    match body p with
    | (Done a, p') => (Done a, p')
    | (Thrown e, p') => handler e p'
    end.

(** [await getDocs(collection(db, path))], the path given by the collection
    it names. *)
Definition getDocs (c : collectionRef) : P (list (string * record)) :=
  fun p =>
    let p' := mkPage (courses p) (store p) (tl (faults p)) (trace p ++ [Call (GetDocs c)])
                (frames p ++ [courses p]) (routes p) in
    if hd false (faults p) then (Thrown FirebaseError, p')
    else (Done (Firestore.getDocs c (store p)), p').

Definition setCourses (x : list record) : P unit :=
  fun p => (Done tt, mkPage x (store p) (faults p) (trace p) (frames p) (routes p)).

Definition console_error (msg : string) : P unit :=
  fun p => (Done tt, mkPage (courses p) (store p) (faults p) (trace p ++ [ConsoleError msg])
                       (frames p) (routes p)).

Definition router_push (url : string) : P unit :=
  fun p => (Done tt, mkPage (courses p) (store p) (faults p) (trace p) (frames p)
                       (routes p ++ [url])).

Definition fetchCollection (path : collectionRef) : P (list record) :=
  snapshot ← getDocs path;
  mret (map snapshotRecord snapshot).

(** 'Departments/Board Courses/Courses' and 'Departments/Non-Board
    Courses/Courses' are the Courses sub-collections of the departments of
    these two identifiers. *)
Definition fetchCourses : P unit :=
  try_catch
    (boardCourses ← fetchCollection (CoursesCol "Board Courses");
     nonBoardCourses ← fetchCollection (CoursesCol "Non-Board Courses");
     setCourses (boardCourses ++ nonBoardCourses))
    (fun error => console_error "Error fetching courses:").

Definition handleCourseClick (courseId : option value) : P unit :=
  router_push ("/schedule/" +:+ ToString courseId).

(** The card of a course: a click on it goes to the schedule of its id. *)
Definition cardClick (course : record) : P unit := handleCourseClick (course !! "id").

End Schedule.

(** ** More sample data *)

Module Sample2.

(** A store in which a staff document holds an id field that names another
    document. *)
Definition shadowed : Store :=
  mkStore {["s1" := Sample.ann; "s2" := <["id" := VStr "s1"]> Sample.bob]}
    (Departments Sample.store) (Courses Sample.store).

(** The row of document s2 of that store: its id reads s1. *)
Definition shadowRow : record := snapshotRecord ("s2", <["id" := VStr "s1"]> Sample.bob).

Definition shadowConfirming : World :=
  mkWorld initialView shadowed [] [true] [] [].

(** The loaded page with a record without id as editing target. *)
Definition noId : World :=
  mkWorld (putSelectedStaff (Some Sample.bob) (putFormData Sample.bob (view Sample.loaded)))
    Sample.store [] [true] [] [].

(** Ann's data typed into the form, the store rejecting the first request
    and accepting the following ones. *)
Definition flaky : World :=
  mkWorld (view Sample.typed) Sample.store [true] [] [] [].

(** The loaded page with Ann's row open in the form. *)
Definition editingAnn : World :=
  mkWorld (putSelectedStaff (Some Sample.row) (putFormData Sample.row (view Sample.loaded)))
    Sample.store [] [true] [] [].

(** The loaded page with all of Ann's data, course C1 of department D1
    with it, typed into the form. *)
Definition annTyped : World :=
  mkWorld (putFormData Sample.ann (view Sample.loaded)) Sample.store [] [] [] [].

(** A store with the two departments the schedule page names. *)
Definition school : Store :=
  mkStore ∅
    {["Board Courses" := Sample.fields [("name", "Board")];
      "Non-Board Courses" := Sample.fields [("name", "Non-Board")]]}
    {["Board Courses" := {["BSN" := Sample.fields [("name", "Nursing")]]};
      "Non-Board Courses" := {["BSIT" := Sample.fields [("name", "Computing")]]}]}.

Definition schedulePage : Schedule.Page := Schedule.mkPage [] school [] [] [] [].

Definition staffPage : World := mkWorld initialView school [] [] [] [].

End Sample2.

(** ** The filter on strings of any code units *)

(** [filteredStaff] once more, on strings that are sequences of code units
    of any type and for any [toLowerCase]: the built-in is a parameter.  Of
    JavaScript's strings (16-bit code units, a case mapping that depends on
    the context of a letter and may change the length) it assumes
    nothing.  [filteredStaff] above is this filter on code units below 256,
    where the case mapping works unit by unit. *)
Module Js.

Section Strings.

Context {U : Type} `{EqDecision U}.

Inductive value :=
| Str (s : list U)
| Null.

Variable toLowerCase : list U -> list U.

Fixpoint startsWith (s t : list U) : bool :=
  match t, s with
  | [], _ => true
  | _ :: _, [] => false
  | b :: t', a :: s' => if decide (a = b) then startsWith s' t' else false
  end.

(** [s.includes(t)] *)
Fixpoint includes (s t : list U) : bool :=
  startsWith s t ||
  match s with
  | [] => false
  | _ :: s' => includes s' t
  end.

Definition call_toLowerCase (field : option value) : outcome (list U) :=
  match field with
  | Some (Str s) => Done (toLowerCase s)
  | _ => Thrown TypeError
  end.

Definition fieldMatches (searchQuery : list U) (field : option value) : outcome bool :=
  match call_toLowerCase field with
  | Thrown e => Thrown e
  | Done s => Done (includes s (toLowerCase searchQuery))
  end.

Definition filteredStaff (staff : list (gmap string value)) (searchQuery : list U)
  : outcome (list (gmap string value)) :=
  Array_filter
    (fun r : gmap string value =>
       Array_some (fieldMatches searchQuery)
         [r !! "firstName"; r !! "lastName"; r !! "position";
          r !! "department"; r !! "course"])
    staff.

(** The five fields the filter reads are strings. *)
Definition searchable (r : gmap string value) : Prop :=
  ∀ k, k ∈ searchFields → ∃ s, r !! k = Some (Str s).

(** The strings of these fields are made of code units in [P]. *)
Definition within (P : U -> Prop) (r : gmap string value) : Prop :=
  ∀ k s, k ∈ searchFields → r !! k = Some (Str s) → Forall P s.

(** What the code tests: the lower-case form of [s] holds the lower-case
    form of [q]. *)
Definition lowerContains (s q : list U) : Prop :=
  ∃ a b, toLowerCase s = a ++ toLowerCase q ++ b.

(** What the spec says: [q] occurs in [s] up to the case of the letters,
    that is, a part of [s] has the lower-case form of [q]. *)
Definition containsUpToCase (s q : list U) : Prop :=
  ∃ a u b, s = a ++ u ++ b ∧ toLowerCase u = toLowerCase q.

Definition matchesLowered (q : list U) (r : gmap string value) : Prop :=
  ∃ k s, k ∈ searchFields ∧ r !! k = Some (Str s) ∧ lowerContains s q.

Definition matchesUpToCase (q : list U) (r : gmap string value) : Prop :=
  ∃ k s, k ∈ searchFields ∧ r !! k = Some (Str s) ∧ containsUpToCase s q.

End Strings.

Arguments value U : clear implicits.
Arguments Null {U}.

End Js.

(** The staff records above as records of strings of 8-bit code units. *)
Definition unitsOf (s : string) : list ascii := String.list_ascii_of_string s.

Definition asJs (r : record) : gmap string (Js.value ascii) :=
  (fun v => match v with
            | VStr s => Js.Str (unitsOf s)
            | VNull => Js.Null
            end) <$> r.

(** ** A case mapping with a final sigma *)

Module Utf16.

(** Code units are numbers below 65536.  The definitions of this module
    follow Unicode's default lower-casing, which [String.prototype.
    toLowerCase] applies, on the code units below 256 (Basic Latin and
    Latin-1) and on the unaccented Greek letters U+0391-U+03A9 and
    U+03B1-U+03C9; other code units are left as they are and the built-in
    is not modelled on them. *)

Definition isGreekCapital (c : N) : bool :=
  ((0x391 <=? c) && (c <=? 0x3A9) && negb (c =? 0x3A2))%N.

Definition isGreekSmall (c : N) : bool := ((0x3B1 <=? c) && (c <=? 0x3C9))%N.

(** The property Cased. *)
Definition isCased (c : N) : bool :=
  ((0x41 <=? c) && (c <=? 0x5A) || (0x61 <=? c) && (c <=? 0x7A)
   || (c =? 0xAA) || (c =? 0xB5) || (c =? 0xBA)
   || (0xC0 <=? c) && (c <=? 0xD6) || (0xD8 <=? c) && (c <=? 0xF6)
   || (0xF8 <=? c) && (c <=? 0xFF)
   || isGreekCapital c || isGreekSmall c)%N.

(** The property Case_Ignorable: apostrophe, full stop, colon, circumflex,
    grave accent, and in Latin-1 diaeresis, soft hyphen, macron, acute
    accent, middle dot, cedilla. *)
Definition isCaseIgnorable (c : N) : bool :=
  ((c =? 0x27) || (c =? 0x2E) || (c =? 0x3A) || (c =? 0x5E) || (c =? 0x60)
   || (c =? 0xA8) || (c =? 0xAD) || (c =? 0xAF) || (c =? 0xB4) || (c =? 0xB7)
   || (c =? 0xB8))%N.

(** The simple lower-case mapping. *)
Definition lowerUnit (c : N) : N :=
  if ((0x41 <=? c) && (c <=? 0x5A)
      || (0xC0 <=? c) && (c <=? 0xDE) && negb (c =? 0xD7)
      || isGreekCapital c)%N
  then (c + 32)%N
  else c.

(** Going away from a letter: case-ignorable units, then a cased one. *)
Fixpoint nearCased (l : list N) : bool :=
  match l with
  | [] => false
  | c :: rest => isCased c || isCaseIgnorable c && nearCased rest
  end.

(** The condition Final_Sigma of SpecialCasing: the sigma follows a cased
    letter and precedes none, case-ignorable units apart.  [before] lists
    the units before the sigma, the nearest first. *)
Definition finalSigma (before after : list N) : bool :=
  nearCased before && negb (nearCased after).

Fixpoint lowerFrom (before s : list N) : list N :=
  match s with
  | [] => []
  | c :: rest =>
      (if (c =? 0x3A3)%N
       then if finalSigma before rest then 0x3C2%N else 0x3C3%N
       else lowerUnit c)
      :: lowerFrom (c :: before) rest
  end.

Definition toLowerCase (s : list N) : list N := lowerFrom [] s.

(** The code units of a string of Basic Latin and Latin-1 characters. *)
Definition units (s : string) : list N := map N_of_ascii (String.list_ascii_of_string s).

End Utf16.

(** ** A Greek name *)

Module Sample3.

(** ΠΑΠΠΑΣ *)
Definition pappas : list N := [0x3A0; 0x391; 0x3A0; 0x3A0; 0x391; 0x3A3]%N.

(** Σ *)
Definition sigma : list N := [0x3A3]%N.

Definition nikos : gmap string (Js.value N) :=
  list_to_map
    [("firstName", Js.Str (Utf16.units "Nikos")); ("lastName", Js.Str pappas);
     ("gender", Js.Str (Utf16.units "Male")); ("address", Js.Str (Utf16.units "1 Main St"));
     ("mobileNumber", Js.Str (Utf16.units "555"));
     ("position", Js.Str (Utf16.units "Teacher"));
     ("department", Js.Str (Utf16.units "D1")); ("course", Js.Str (Utf16.units "C1"))].

End Sample3.

(** * Properties *)

(** ** The model at work *)

Example toLowerCase_sample : Str.toLowerCase "Course Head" = "course head".
Proof. reflexivity. Qed.

Example includes_sample :
  Str.includes "teacher" "ach" = true ∧ Str.includes "teacher" "tar" = false.
Proof. split; reflexivity. Qed.

Example filter_by_position : filteredStaff [Sample.ann] "TEACH" = Done [Sample.ann].
Proof. vm_compute. reflexivity. Qed.

Example filter_no_match : filteredStaff [Sample.ann] "dean" = Done [].
Proof. vm_compute. reflexivity. Qed.

(** Bob has no course: a query found in none of his fields runs into
    it, a query found in his first name does not get that far. *)
Example filter_missing_course :
  filteredStaff [Sample.bob] "dean" = Thrown TypeError
  ∧ filteredStaff [Sample.bob] "bo" = Done [Sample.bob].
Proof. split; vm_compute; reflexivity. Qed.

Example first_load :
  (fetchData Sample.fresh).1 = Done tt
  ∧ trace (fetchData Sample.fresh).2
    = [Call (GetDocs StaffCol); Call (GetDocs DepartmentsCol);
       Call (GetDocs (CoursesCol "D1")); Call (GetDocs (CoursesCol "D2"))]
  ∧ length (staff (view (fetchData Sample.fresh).2)) = 1.
Proof. repeat split; vm_compute; reflexivity. Qed.

Example failed_load :
  trace (fetchData Sample.departmentsDown).2
  = [Call (GetDocs StaffCol); Call (GetDocs DepartmentsCol)] ++ fetchError.
Proof. vm_compute. reflexivity. Qed.

(** ** Strings *)

Section StringFacts.

Lemma app_cons c a b : String c a +:+ b = String c (a +:+ b).
Proof. reflexivity. Qed.

Lemma toLowerCase_app a b :
  Str.toLowerCase (a +:+ b) = Str.toLowerCase a +:+ Str.toLowerCase b.
Proof. induction a as [|c a IH]; [done | by rewrite !app_cons; simpl; rewrite IH]. Qed.

Lemma toLowerCase_length s : String.length (Str.toLowerCase s) = String.length s.
Proof. induction s as [|c s IH]; simpl; [done | by rewrite IH]. Qed.

(** A split of the lowered string comes from a split of the string. *)
Lemma toLowerCase_split s a r :
  Str.toLowerCase s = a +:+ r →
  ∃ a' r', s = a' +:+ r' ∧ Str.toLowerCase a' = a ∧ Str.toLowerCase r' = r.
Proof.
  revert s. induction a as [|c a IH]; intros s H.
  - by exists "", s.
  - destruct s as [|d s]; rewrite app_cons in H; simpl in H; [discriminate |].
    injection H as Hc Hs. destruct (IH _ Hs) as (a' & r' & -> & Ha & Hr).
    exists (String d a'), r'. rewrite app_cons. simpl. by rewrite Hc, Ha.
Qed.

Lemma startsWith_spec s t : Str.startsWith s t = true ↔ ∃ b, s = t +:+ b.
Proof.
  revert s. induction t as [|c t IH]; intros s; simpl.
  - split; [by exists s | by destruct s].
  - destruct s as [|d s]; simpl.
    + split; [done | by intros [b ?]].
    + destruct (Ascii.eqb_spec d c) as [->|Hne].
      * rewrite IH. split; intros [b Hb]; exists b; rewrite ?app_cons in *; congruence.
      * split; [done | intros [b Hb]; rewrite app_cons in Hb; congruence].
Qed.

Lemma includes_spec s t : Str.includes s t = true ↔ ∃ a b, s = a +:+ t +:+ b.
Proof.
  induction s as [|d s IH].
  - change (Str.includes "" t) with (Str.startsWith "" t || false).
    rewrite orb_false_r, startsWith_spec. split.
    + intros [b Hb]. by exists "", b.
    + intros (a & b & Hab). destruct a; [by exists b | by rewrite app_cons in Hab].
  - change (Str.includes (String d s) t)
      with (Str.startsWith (String d s) t || Str.includes s t).
    rewrite orb_true_iff, startsWith_spec, IH. split.
    + intros [[b Hb] | (a & b & Hab)].
      * by exists "", b.
      * exists (String d a), b. by rewrite app_cons, Hab.
    + intros (a & b & Hab). destruct a as [|c a].
      * left. by exists b.
      * right. exists a, b. rewrite app_cons in Hab. congruence.
Qed.

Lemma includes_empty s : Str.includes s "" = true.
Proof. destruct s; reflexivity. Qed.

Lemma app_length_string a b :
  String.length (a +:+ b) = String.length a + String.length b.
Proof. induction a as [|c a IH]; [done | by rewrite app_cons; simpl; rewrite IH]. Qed.

Lemma includes_length s t : Str.includes s t = true → (String.length t ≤ String.length s)%nat.
Proof.
  rewrite includes_spec. intros (a & b & ->). rewrite !app_length_string. lia.
Qed.

Lemma repeat_length c n : String.length (Str.repeat c n) = n.
Proof. induction n as [|n IH]; simpl; [done | by rewrite IH]. Qed.

(** The test of the filter on one string field is the containment of the
    query up to case. *)
Lemma includes_ignoring_case s q :
  Str.includes (Str.toLowerCase s) (Str.toLowerCase q) = true ↔ containsIgnoringCase s q.
Proof.
  rewrite includes_spec. split.
  - intros (a & b & H).
    apply toLowerCase_split in H as (a' & r' & -> & _ & Hr).
    apply toLowerCase_split in Hr as (u & b' & -> & Hu & _).
    by exists a', u, b'.
  - intros (a & u & b & -> & Hu).
    exists (Str.toLowerCase a), (Str.toLowerCase b).
    by rewrite !toLowerCase_app, Hu.
Qed.

End StringFacts.

(** ** The search filter *)

Section FilterFacts.

Implicit Types (r : record) (R : list record) (q k : string).

Lemma filteredStaff_unfold R q :
  filteredStaff R q =
  Array_filter
    (fun r => Array_some (fieldMatches q) (map (fun k => r !! k) searchFields)) R.
Proof. reflexivity. Qed.

Lemma Array_filter_cons {A} (p : A → outcome bool) x l :
  Array_filter p (x :: l) =
  match p x with
  | Thrown e => Thrown e
  | Done b =>
      match Array_filter p l with
      | Thrown e => Thrown e
      | Done out => Done (if b then x :: out else out)
      end
  end.
Proof. reflexivity. Qed.

Lemma hasString_cases r k : hasString r k ∨ ¬ hasString r k.
Proof.
  unfold hasString. destruct (r !! k) as [[s|]|]; [left; by exists s | right | right];
    by intros [s ?].
Qed.

Lemma fields_cases r (ks : list string) :
  (∀ k, k ∈ ks → hasString r k) ∨ (∃ k, k ∈ ks ∧ ¬ hasString r k).
Proof.
  induction ks as [|k ks IH].
  - left. intros k Hk. by apply elem_of_nil in Hk.
  - destruct (hasString_cases r k) as [Hk | Hk].
    + destruct IH as [IH | (k' & Hin & Hno)].
      * left. intros k' [-> | Hin]%elem_of_cons; auto.
      * right. exists k'. split; [by apply elem_of_cons; right | done].
    + right. exists k. split; [by apply elem_of_cons; left | done].
Qed.

Lemma searchable_cases r : searchable r ∨ ¬ searchable r.
Proof.
  destruct (fields_cases r searchFields) as [H | (k & Hin & Hno)]; [by left |].
  right. intros H. by apply Hno, H.
Qed.

(** On fields that are strings, [some] returns, and returns true exactly
    when a field contains the query up to case. *)
Lemma some_strings r q (ks : list string) :
  (∀ k, k ∈ ks → hasString r k) →
  ∃ b, Array_some (fieldMatches q) (map (fun k => r !! k) ks) = Done b
       ∧ (b = true ↔
          ∃ k s, k ∈ ks ∧ r !! k = Some (VStr s) ∧ containsIgnoringCase s q).
Proof.
  induction ks as [|k ks IH]; intros Hks.
  - exists false. split; [done |]. split; [done |].
    intros (k & s & Hin & _). by apply elem_of_nil in Hin.
  - destruct (Hks k) as [s Hs]; [by apply elem_of_cons; left |].
    destruct IH as (b & Hb & Hspec).
    { intros k' Hin. apply Hks, elem_of_cons. by right. }
    simpl. unfold fieldMatches at 1. rewrite Hs. simpl.
    destruct (Str.includes _ _) eqn:Hinc.
    + exists true. split; [done |]. split; [intros _ | done].
      exists k, s. split; [by apply elem_of_cons; left |].
      split; [done | by apply includes_ignoring_case].
    + exists b. split; [done |]. rewrite Hspec. split.
      * intros (k' & s' & Hin & Hs' & Hc). exists k', s'.
        split; [by apply elem_of_cons; right | done].
      * intros (k' & s' & [-> | Hin]%elem_of_cons & Hs' & Hc).
        -- rewrite Hs in Hs'. injection Hs' as <-.
           apply includes_ignoring_case in Hc. congruence.
        -- by exists k', s'.
Qed.

(** A query longer than a field is not found in it. *)
Lemma fieldMatches_long r q k s :
  r !! k = Some (VStr s) → fieldLength r k < String.length q →
  fieldMatches q (r !! k) = Done false.
Proof.
  intros Hs Hlen. unfold fieldMatches. rewrite Hs. simpl.
  destruct (Str.includes _ _) eqn:Hinc; [| done].
  apply includes_length in Hinc. rewrite !toLowerCase_length in Hinc.
  unfold fieldLength in Hlen. rewrite Hs in Hlen. simpl in Hlen. lia.
Qed.

Lemma fieldMatches_no_string r q k :
  ¬ hasString r k → fieldMatches q (r !! k) = Thrown TypeError.
Proof.
  unfold hasString, fieldMatches. destruct (r !! k) as [[s|]|]; [| done | done].
  intros H. destruct H. by exists s.
Qed.

Lemma some_long_strings r q (ks : list string) :
  (∀ k, k ∈ ks → fieldLength r k < String.length q) →
  (∀ k, k ∈ ks → hasString r k) →
  Array_some (fieldMatches q) (map (fun k => r !! k) ks) = Done false.
Proof.
  induction ks as [|k ks IH]; intros Hlen Hall; [done |].
  destruct (Hall k) as [s Hs]; [by apply elem_of_cons; left |].
  simpl. rewrite (fieldMatches_long r q k s Hs).
  - apply IH; intros k' Hin; [apply Hlen | apply Hall]; apply elem_of_cons; by right.
  - apply Hlen, elem_of_cons. by left.
Qed.

Lemma some_long_throws r q (ks : list string) :
  (∀ k, k ∈ ks → fieldLength r k < String.length q) →
  (∃ k, k ∈ ks ∧ ¬ hasString r k) →
  Array_some (fieldMatches q) (map (fun k => r !! k) ks) = Thrown TypeError.
Proof.
  induction ks as [|k ks IH]; intros Hlen (k0 & Hin & Hno).
  - by apply elem_of_nil in Hin.
  - simpl. destruct (hasString_cases r k) as [[s Hs] | Hk].
    + rewrite (fieldMatches_long r q k s Hs).
      2: { apply Hlen, elem_of_cons. by left. }
      apply IH.
      * intros k' Hin'. apply Hlen, elem_of_cons. by right.
      * apply elem_of_cons in Hin as [-> | Hin]; [| by exists k0].
        destruct Hno. by exists s.
    + by rewrite (fieldMatches_no_string r q k Hk).
Qed.

Lemma filter_selects R q :
  Forall searchable R →
  ∃ out, filteredStaff R q = Done out ∧ Selects (matchesQuery q) R out.
Proof.
  rewrite filteredStaff_unfold. induction 1 as [|r R Hr _ (out & Hout & Hsel)].
  - exists []. split; [done | constructor].
  - destruct (some_strings r q searchFields Hr) as (b & Hb & Hspec).
    rewrite Array_filter_cons, Hb, Hout. destruct b.
    + exists (r :: out). split; [done |]. constructor; [| done].
      by apply Hspec.
    + exists out. split; [done |]. constructor; [| done].
      intros Hm. by apply Hspec in Hm.
Qed.

Lemma filter_empty_query R : Forall searchable R → filteredStaff R "" = Done R.
Proof.
  rewrite filteredStaff_unfold. induction 1 as [|r R Hr _ IH]; [done |].
  destruct (Hr "firstName") as [s Hs]; [set_solver |].
  rewrite Array_filter_cons, IH. simpl. unfold fieldMatches at 1. rewrite Hs. simpl.
  by rewrite includes_empty.
Qed.

Lemma fieldLength_le_sum r k (ks : list string) :
  k ∈ ks → (fieldLength r k ≤ sum_list (map (fieldLength r) ks))%nat.
Proof.
  induction ks as [|k' ks IH]; intros Hin; [by apply elem_of_nil in Hin |].
  apply elem_of_cons in Hin as [-> | Hin]; simpl; [lia |].
  specialize (IH Hin). lia.
Qed.

Lemma filter_long_query R q :
  (∀ r k, r ∈ R → k ∈ searchFields → fieldLength r k < String.length q) →
  ¬ Forall searchable R → filteredStaff R q = Thrown TypeError.
Proof.
  rewrite filteredStaff_unfold. induction R as [|r R IH]; intros Hlen Hbad.
  - destruct Hbad. constructor.
  - assert (Hr : ∀ k, k ∈ searchFields → fieldLength r k < String.length q).
    { intros k Hk. apply Hlen; [by apply elem_of_cons; left | done]. }
    rewrite Array_filter_cons. destruct (fields_cases r searchFields) as [Hall | Hex].
    + rewrite (some_long_strings r q searchFields Hr Hall).
      rewrite IH; [done | |].
      * intros r' k Hin. apply Hlen. apply elem_of_cons. by right.
      * intros HR. apply Hbad. by constructor.
    + by rewrite (some_long_throws r q searchFields Hr Hex).
Qed.

Lemma longQuery_longer R r k :
  r ∈ R → k ∈ searchFields → fieldLength r k < String.length (longQuery R).
Proof.
  intros Hr Hk. unfold longQuery. rewrite repeat_length.
  pose proof (fieldLength_le_sum r k searchFields Hk) as H1.
  assert (H2 : (sum_list (map (fieldLength r) searchFields)
                ≤ sum_list (map (fun r => sum_list (map (fieldLength r) searchFields)) R))%nat).
  { clear H1 Hk. induction R as [|r' R IH]; [by apply elem_of_nil in Hr |].
    apply elem_of_cons in Hr as [-> | Hr]; simpl; [lia |].
    specialize (IH Hr). simpl in IH. lia. }
  lia.
Qed.

End FilterFacts.

(** C9. The filter returns for every query exactly when every record of the
    list has strings in the five fields it reads: on such a list it
    returns, and on a list with a record in which one of them is missing or
    null some query makes it throw a TypeError. *)
Theorem filteredStaff_throws (R : list record) :
  (Forall searchable R → ∀ q, ∃ out, filteredStaff R q = Done out)
  ∧ (¬ Forall searchable R → ∃ q, filteredStaff R q = Thrown TypeError).
Proof.
  split.
  - intros HR q. destruct (filter_selects R q HR) as (out & Hout & _). by exists out.
  - intros Hbad. exists (longQuery R). apply filter_long_query; [| done].
    intros r k. apply longQuery_longer.
Qed.

Lemma filteredStaff_throws_witness :
  ¬ Forall searchable [Sample.ann; Sample.bob]
  ∧ ∃ q, filteredStaff [Sample.ann; Sample.bob] q = Thrown TypeError.
Proof.
  assert (H : ¬ Forall searchable [Sample.ann; Sample.bob]).
  { intros H. apply Forall_cons in H as [_ H]. apply Forall_cons in H as [H _].
    destruct (H "course") as [s Hs]; [set_solver |]. vm_compute in Hs. discriminate. }
  split; [exact H | exact (proj2 (filteredStaff_throws [Sample.ann; Sample.bob]) H)].
Defined.

(** ** The data loader *)

Section LoaderFacts.

Implicit Types (w : World) (d : record) (ds : list record).

Lemma bind_run {A B} (m : M A) (k : A → M B) w :
  (m ≫= k) w =
  match m w with
  | (Done a, w') => k a w'
  | (Thrown e, w') => (Thrown e, w')
  end.
Proof. reflexivity. Qed.

Lemma tl_drop {A} (l : list A) n : drop n (tl l) = drop (S n) l.
Proof. destruct l; [by destruct n | done]. Qed.

Lemma getDocs_run c w :
  getDocs c w =
  (if nextFault w then Thrown FirebaseError else Done (Firestore.getDocs c (db w)),
   sent (GetDocs c) w).
Proof.
  unfold getDocs, request, settle, sent, mbind, M_bind, bind, emit, suspend, nextFault.
  simpl. by destruct (hd false (faults w)).
Qed.

Lemma fetchCourses_run d acc w :
  fetchCourses d acc w =
  if decide (departmentKey d = "") then (Thrown FirebaseError, w)
  else (if nextFault w then Thrown FirebaseError
        else Done (<[departmentKey d := loadedCoursesOf (db w) (departmentKey d)]> acc),
        sent (GetDocs (CoursesCol (departmentKey d))) w).
Proof.
  unfold fetchCourses, coursesCollection. fold (departmentKey d).
  rewrite bind_run. destruct (decide (departmentKey d = "")); [done |].
  simpl. rewrite bind_run, getDocs_run. by destruct (nextFault w).
Qed.

Lemma coursesRequested_0 ds w : coursesRequested 0 ds w = w.
Proof. destruct w. unfold coursesRequested. simpl. by rewrite !app_nil_r. Qed.

Lemma coursesRequested_S n d ds w :
  coursesRequested n ds (sent (GetDocs (CoursesCol (departmentKey d))) w)
  = coursesRequested (S n) (d :: ds) w.
Proof.
  unfold coursesRequested, sent. simpl. rewrite tl_drop, <- !app_assoc. done.
Qed.

(** The loop over the departments: it requests the courses of a first
    few of them, and of all of them when it completes. *)
Lemma forOf_fetchCourses ds acc w :
  ∃ n, n ≤ length ds
    ∧ (forOf ds fetchCourses acc w).2 = coursesRequested n ds w
    ∧ match (forOf ds fetchCourses acc w).1 with
      | Done acc' =>
          n = length ds ∧ acc' = collectCourses (db w) ds acc
          ∧ Forall (fun d => departmentKey d ≠ "") ds
      | Thrown _ => True
      end.
Proof.
  revert acc w. induction ds as [|d ds IH]; intros acc w.
  - exists 0. simpl. rewrite coursesRequested_0. repeat split; auto.
  - simpl. rewrite bind_run, fetchCourses_run.
    destruct (decide (departmentKey d = "")) as [Hk | Hk].
    { exists 0. simpl. rewrite coursesRequested_0. split; [lia | done]. }
    destruct (nextFault w).
    { exists 1. simpl. rewrite <- (coursesRequested_S 0), coursesRequested_0.
      split; [lia | done]. }
    destruct (IH (<[departmentKey d := loadedCoursesOf (db w) (departmentKey d)]> acc)
                (sent (GetDocs (CoursesCol (departmentKey d))) w)) as (n & Hn & Hw & Hr).
    exists (S n). split; [lia |]. split; [by rewrite Hw, coursesRequested_S |].
    destruct (forOf ds fetchCourses _ _).1; [| done].
    destruct Hr as (-> & -> & Hkeys). repeat split; auto.
Qed.

(** The three ways the [try] block of [fetchData] ends. *)
Lemma fetchBody_run w :
  (nextFault w = true
   ∧ fetchBody w = (Thrown FirebaseError, sent (GetDocs StaffCol) w))
  ∨ (nextFault w = false ∧ nextFault (staffFetched w) = true
     ∧ fetchBody w = (Thrown FirebaseError, sent (GetDocs DepartmentsCol) (staffFetched w)))
  ∨ (nextFault w = false ∧ nextFault (staffFetched w) = false
     ∧ ∃ n, n ≤ length (loadedDepartments (db w))
         ∧ ((∃ e, fetchBody w =
                  (Thrown e,
                   coursesRequested n (loadedDepartments (db w)) (departmentsFetched w)))
            ∨ (n = length (loadedDepartments (db w)) ∧ departmentsKeyed (db w)
               ∧ fetchBody w =
                 (Done tt,
                  withView (allLoaded w)
                    (coursesRequested n (loadedDepartments (db w))
                       (departmentsFetched w)))))).
Proof.
  unfold fetchBody. rewrite bind_run, getDocs_run.
  destruct (nextFault w) eqn:Hf1; [by left | right].
  rewrite bind_run. simpl. rewrite bind_run, getDocs_run.
  fold (loadedStaff (db w)). fold (staffLoaded w).
  change (mkWorld (staffLoaded w) _ _ _ _ _) with (staffFetched w).
  destruct (nextFault (staffFetched w)) eqn:Hf2; [by left | right].
  split; [done |]. split; [done |].
  rewrite bind_run. simpl. rewrite bind_run.
  change (map snapshotRecord (Firestore.getDocs DepartmentsCol (db w)))
    with (loadedDepartments (db w)).
  change (mkWorld (putDepartments _ _) _ _ _ _ _) with (departmentsFetched w).
  destruct (forOf_fetchCourses (loadedDepartments (db w)) ∅ (departmentsFetched w))
    as (n & Hn & Hw & Hr).
  exists n. split; [done |].
  destruct (forOf _ _ _ _) as [[acc | e] w2]; simpl in *; subst w2.
  - right. destruct Hr as (-> & -> & Hkeys). split; [done |]. split; [done |].
    unfold setAllCourses, setState, withView. simpl. reflexivity.
  - left. by exists e.
Qed.

End LoaderFacts.

Section LoaderOutcome.

Implicit Types (w : World).

Lemma fetchData_run w :
  fetchData w =
  match fetchBody w with
  | (Done a, w') => (Done a, w')
  | (Thrown e, w') => (Done tt, logged fetchError w')
  end.
Proof.
  unfold fetchData, try_catch. destruct (fetchBody w) as [[a | e] w']; [done |].
  unfold console_error, Swal_fire, emit, mbind, M_bind, bind, logged, fetchError.
  simpl. by rewrite <- app_assoc.
Qed.

Lemma fetchData_returns w : (fetchData w).1 = Done tt.
Proof.
  rewrite fetchData_run. by destruct (fetchBody w) as [[[] | e] w'].
Qed.

(** The requests of a load are reads, whatever its outcome; the store,
    the form and the dialogs' script are as before. *)
Lemma fetchData_frame w :
  db (fetchData w).2 = db w
  ∧ answers (fetchData w).2 = answers w
  ∧ formData (view (fetchData w).2) = formData (view w)
  ∧ selectedStaff (view (fetchData w).2) = selectedStaff (view w)
  ∧ searchQuery (view (fetchData w).2) = searchQuery (view w)
  ∧ ∃ cs es, trace (fetchData w).2 = trace w ++ map (fun col => Call (GetDocs col)) cs ++ es
             ∧ (es = [] ∨ es = fetchError).
Proof.
  rewrite fetchData_run.
  destruct (fetchBody_run w)
    as [(_ & ->) | [(_ & _ & ->) | (_ & _ & n & _ & [(e & ->) | (_ & _ & ->)])]];
    simpl; repeat (split; [done |]).
  - exists [StaffCol], fetchError. rewrite <- app_assoc. auto.
  - exists [StaffCol; DepartmentsCol], fetchError.
    rewrite <- !app_assoc. auto.
  - exists (StaffCol :: DepartmentsCol
            :: map (fun d => CoursesCol (departmentKey d))
                 (take n (loadedDepartments (db w)))), fetchError.
    rewrite map_cons, map_cons, map_map, <- !app_assoc. auto.
  - exists (StaffCol :: DepartmentsCol
            :: map (fun d => CoursesCol (departmentKey d))
                 (take n (loadedDepartments (db w)))), [].
    rewrite map_cons, map_cons, map_map, <- !app_assoc, app_nil_r. auto.
Qed.

End LoaderOutcome.




(** C6, as the code has it.  A load that succeeds replaces the three pieces
    one after the other: the page shows the state of before while the staff
    is fetched, the new staff list with the departments and courses of
    before while the departments are fetched, the new staff list and
    departments with the courses of before while the courses of each
    department are fetched, and all three new at the end. *)
Theorem fetchData_success_frames (w : World) :
  loadSucceeds w →
  let w' := (fetchData w).2 in
  view w' = allLoaded w
  ∧ frames w' =
    frames w ++ [view w; staffLoaded w]
    ++ replicate (length (loadedDepartments (db w))) (departmentsLoaded w).
Proof.
  unfold loadSucceeds. intros Hok. simpl. rewrite fetchData_run.
  destruct (fetchBody_run w)
    as [(_ & Hb) | [(_ & _ & Hb) | (_ & _ & n & _ & [(e' & Hb) | (-> & _ & Hb)])]];
    rewrite Hb in *; simpl in *; try discriminate.
  split; [done |]. by rewrite <- !app_assoc.
Qed.

Lemma fetchData_success_frames_witness :
  loadSucceeds Sample.fresh
  ∧ view (fetchData Sample.fresh).2 = allLoaded Sample.fresh.
Proof.
  assert (H : loadSucceeds Sample.fresh) by (vm_compute; reflexivity).
  split; [exact H | exact (proj1 (fetchData_success_frames Sample.fresh H))].
Defined.

(** C6, as the spec states it, fails: during a successful load the page
    shows a state whose staff list is the new one and whose departments are
    still those of before. *)
Lemma fetchData_mixed_frame :
  let w' := (fetchData Sample.fresh).2 in
  loadSucceeds Sample.fresh
  ∧ ∃ v, v ∈ frames w'
      ∧ staff v = staff (view w') ∧ staff v ≠ staff (view Sample.fresh)
      ∧ departments v = departments (view Sample.fresh)
      ∧ departments v ≠ departments (view w').
Proof.
  split; [vm_compute; reflexivity |].
  exists (staffLoaded Sample.fresh). split.
  - vm_compute. apply list_elem_of_further, list_elem_of_here.
  - repeat split; try (vm_compute; reflexivity);
      intros H; apply (f_equal length) in H; vm_compute in H; discriminate.
Qed.

(** ** The mutation gateway *)

Section GatewayFacts.

Implicit Types (w : World) (c : call).

Lemma catch_fetchData (h : exn → M unit) w :
  match fetchData w with
  | (Done a, w') => (Done a, w')
  | (Thrown e, w') => h e w'
  end = fetchData w.
Proof.
  pose proof (fetchData_returns w) as H.
  destruct (fetchData w) as [[[] | e] w']; [done | discriminate].
Qed.

Lemma request_run {A} c (op : Store → option (A * Store)) w :
  request c op w =
  if nextFault w then (Thrown FirebaseError, sent c w)
  else match op (db w) with
       | Some (a, s) => (Done a, withDb s (sent c w))
       | None => (Thrown FirebaseError, sent c w)
       end.
Proof.
  unfold request, settle, sent, withDb, mbind, M_bind, bind, emit, suspend, nextFault.
  simpl. destruct (hd false (faults w)); [done |]. by destruct (op (db w)) as [[a s] |].
Qed.

Lemma Swal_confirm_run title text w :
  Swal_confirm title text w = (Done (nextAnswer w), asked title text w).
Proof. reflexivity. Qed.

(** What the three [catch] blocks do. *)
Lemma caught msg title text icon w :
  (console_error msg;; Swal_fire title text icon) w
  = (Done tt, logged [ConsoleError msg; Alert title text icon] w).
Proof.
  unfold console_error, Swal_fire, emit, mbind, M_bind, bind, logged.
  simpl. by rewrite <- app_assoc.
Qed.

Lemma handleSubmit_create w :
  selectedStaff (view w) = None →
  let c := AddDoc StaffCol (formData (view w)) in
  handleSubmit w =
  if nextFault w then (Done tt, logged saveError (sent c w))
  else fetchData (saved "added" (Firestore.addDoc StaffCol (formData (view w)) (db w)).2 c w).
Proof.
  intros Hsel. unfold handleSubmit. rewrite bind_run. simpl. rewrite Hsel.
  rewrite bind_run. simpl. unfold try_catch. rewrite bind_run, bind_run. unfold addDoc.
  rewrite request_run. destruct (nextFault w).
  - apply caught.
  - simpl. rewrite !bind_run. simpl. apply catch_fetchData.
Qed.

Lemma handleSubmit_update w s i :
  selectedStaff (view w) = Some s → s !! "id" = Some (VStr i) → i ≠ "" →
  let c := UpdateDoc StaffCol i (formData (view w)) in
  handleSubmit w =
  match settles c w with
  | Some s' => fetchData (saved "updated" s' c w)
  | None => (Done tt, logged saveError (sent c w))
  end.
Proof.
  intros Hsel Hid Hne. unfold handleSubmit. rewrite bind_run. simpl. rewrite Hsel.
  rewrite bind_run, Hid. simpl. destruct (decide (i = "")) as [? | _]; [done |].
  simpl. unfold try_catch. rewrite bind_run. unfold updateDoc.
  rewrite request_run. unfold settles, perform.
  destruct (nextFault w).
  - apply caught.
  - destruct (Firestore.updateDoc StaffCol i (formData (view w)) (db w)) as [s' |]; simpl.
    + rewrite !bind_run. simpl. apply catch_fetchData.
    + apply caught.
Qed.

Lemma handleDelete_run (staffMember : record) i w :
  staffMember !! "id" = Some (VStr i) → i ≠ "" →
  let c := DeleteDoc StaffCol i in
  let w1 := asked "Are you sure?" "You will not be able to recover this staff member!" w in
  handleDelete staffMember w =
  if nextAnswer w then
    match settles c w with
    | Some s' => fetchData (deleted s' c w)
    | None => (Done tt, logged deleteError (sent c w1))
    end
  else (Done tt, w1).
Proof.
  intros Hid Hne. unfold handleDelete. rewrite bind_run, Swal_confirm_run.
  destruct (nextAnswer w); [| done].
  unfold try_catch. rewrite bind_run, Hid. simpl.
  destruct (decide (i = "")) as [? | _]; [done |]. simpl.
  rewrite bind_run. unfold deleteDoc. rewrite request_run.
  unfold settles, perform. change (nextFault (asked _ _ w)) with (nextFault w).
  destruct (nextFault w).
  - apply caught.
  - change (db (asked _ _ w)) with (db w).
    destruct (Firestore.deleteDoc StaffCol i (db w)) as [s' |]; simpl.
    + rewrite !bind_run. simpl. apply catch_fetchData.
    + apply caught.
Qed.

End GatewayFacts.

Section GatewayOutcome.

Implicit Types (w : World) (c : call).

Lemma fetchData_staff w :
  nextFault w = false → staff (view (fetchData w).2) = loadedStaff (db w).
Proof.
  intros Hf. rewrite fetchData_run.
  destruct (fetchBody_run w)
    as [(Hf' & _) | [(_ & _ & ->) | (_ & _ & n & _ & [(e & ->) | (_ & _ & ->)])]];
    [congruence | done ..].
Qed.

(** The trace of a handler that ends in a reload. *)
Lemma reload_trace w :
  ∃ cs es, trace (fetchData w).2 = trace w ++ map (fun col => Call (GetDocs col)) cs ++ es
           ∧ (es = [] ∨ es = fetchError).
Proof. apply fetchData_frame. Qed.

Lemma handleSubmit_run w target :
  targetId w = Some target →
  handleSubmit w =
  match settles (saveCall w target) w with
  | Some s' => fetchData (saved (saveVerb target) s' (saveCall w target) w)
  | None => (Done tt, logged saveError (sent (saveCall w target) w))
  end.
Proof.
  unfold targetId. destruct (selectedStaff (view w)) as [s |] eqn:Hsel.
  - destruct (s !! "id") as [[i |] |] eqn:Hid; try done.
    destruct (decide (i = "")) as [| Hne]; [done |]. intros [= <-].
    by apply handleSubmit_update with s.
  - intros [= <-]. simpl. rewrite handleSubmit_create by done.
    unfold settles, perform. by destruct (nextFault w).
Qed.

End GatewayOutcome.



(** C4. A delete starts with a confirmation dialog.  When the user
    declines, nothing else happens: no store call, no notification, state
    and store as before.  When the user confirms and the store call
    succeeds, the document of that identifier is removed, a success
    notification is shown and the data loader runs.  When the user confirms
    and the store call fails, an error notification is shown and no load is
    made. *)
Theorem handleDelete_gateway (staffMember : record) (i : string) (w : World) :
  staffMember !! "id" = Some (VStr i) → i ≠ "" →
  let c := DeleteDoc StaffCol i in
  let w' := (handleDelete staffMember w).2 in
  (nextAnswer w = false →
     (handleDelete staffMember w).1 = Done tt
     ∧ trace w' = trace w ++ [deletePrompt]
     ∧ view w' = view w ∧ db w' = db w)
  ∧ (nextAnswer w = true → ∀ s', settles c w = Some s' →
     handleDelete staffMember w = fetchData (deleted s' c w)
     ∧ db w' = s'
     ∧ Staff s' = delete i (Staff (db w))
     ∧ ∃ cs es,
         trace w' =
         trace w
         ++ [deletePrompt; Call c;
             Alert "Deleted!" "Staff member has been deleted." "success"]
         ++ map (fun col => Call (GetDocs col)) cs ++ es
         ∧ (es = [] ∨ es = fetchError))
  ∧ (nextAnswer w = true → settles c w = None →
     (handleDelete staffMember w).1 = Done tt
     ∧ trace w' = trace w ++ deletePrompt :: Call c :: deleteError
     ∧ view w' = view w ∧ db w' = db w).
Proof.
  intros Hid Hne. simpl. rewrite (handleDelete_run staffMember i w Hid Hne).
  split; [| split].
  - by intros ->.
  - intros -> s' Hs. rewrite Hs. split; [done |].
    destruct (fetchData_frame (deleted s' (DeleteDoc StaffCol i) w))
      as (-> & _ & _ & _ & _ & cs & es & -> & Hes).
    split; [done |]. split.
    + unfold settles, perform, Firestore.deleteDoc in Hs.
      destruct (nextFault w); [done |]. simpl in Hs.
      destruct (Staff (db w) !! i); [| done]. by injection Hs as <-.
    + exists cs, es. split; [| done]. simpl. by rewrite <- !app_assoc.
  - intros -> ->. simpl. by rewrite <- !app_assoc.
Qed.

Lemma handleDelete_gateway_witness :
  (Sample.row !! "id" = Some (VStr "s1") ∧ "s1" ≠ "" ∧ nextAnswer Sample.loaded = false
   ∧ trace (handleDelete Sample.row Sample.loaded).2 = trace Sample.loaded ++ [deletePrompt])
  ∧ (nextAnswer Sample.confirming = true
     ∧ Staff (db (handleDelete Sample.row Sample.confirming).2) = delete "s1" (Staff Sample.store)).
Proof.
  assert (Hid : Sample.row !! "id" = Some (VStr "s1")) by (vm_compute; reflexivity).
  assert (Hne : "s1" ≠ "") by discriminate.
  assert (A1 : nextAnswer Sample.loaded = false) by reflexivity.
  assert (A2 : nextAnswer Sample.confirming = true) by reflexivity.
  assert (S2 : settles (DeleteDoc StaffCol "s1") Sample.confirming
               = Some (mkStore (delete "s1" (Staff Sample.store))
                         (Departments Sample.store) (Courses Sample.store)))
    by (vm_compute; reflexivity).
  split.
  - split; [exact Hid |]. split; [exact Hne |]. split; [exact A1 |].
    exact (proj1 (proj2 (proj1 (handleDelete_gateway Sample.row "s1" Sample.loaded Hid Hne)
                           A1))).
  - split; [exact A2 |].
    destruct (proj1 (proj2 (handleDelete_gateway Sample.row "s1" Sample.confirming Hid Hne))
                A2 _ S2) as (_ & -> & _).
    reflexivity.
Defined.

(** C3. A save with no editing target adds one document to the Staff
    collection, under an identifier the store chooses and that no document
    had, whose field map is the submitted one; the reload then lists one
    record more, the new one among them.  A save with an editing target
    overwrites, in the document the target's identifier names, the
    submitted fields, and the identifiers of the collection are as
    before. *)
Theorem handleSubmit_store (w : World) :
  nextFault w = false →
  let w' := (handleSubmit w).2 in
  let data := formData (view w) in
  (selectedStaff (view w) = None →
     let id := Firestore.autoId (Staff (db w)) in
     Staff (db w) !! id = None
     ∧ Staff (db w') = <[id := data]> (Staff (db w))
     ∧ Departments (db w') = Departments (db w)
     ∧ Courses (db w') = Courses (db w)
     ∧ (nextFault (sent (saveCall w None) w) = false →
        length (staff (view w')) = S (size (Staff (db w)))
        ∧ snapshotRecord (id, data) ∈ staff (view w')))
  ∧ (∀ s i old,
       selectedStaff (view w) = Some s → s !! "id" = Some (VStr i) → i ≠ "" →
       Staff (db w) !! i = Some old →
       Staff (db w') = <[i := data ∪ old]> (Staff (db w))
       ∧ dom (Staff (db w')) = dom (Staff (db w))
       ∧ Departments (db w') = Departments (db w)
       ∧ Courses (db w') = Courses (db w)).
Proof.
  intros Hf. cbv zeta. split.
  - intros Hsel.
    assert (Ht : targetId w = Some None) by (unfold targetId; by rewrite Hsel).
    rewrite (handleSubmit_run w None Ht). unfold settles. rewrite Hf.
    cbn [perform saveCall saveVerb].
    split; [apply fresh_string_fresh |].
    match goal with
    | |- context [fetchData ?X] =>
        destruct (fetchData_frame X) as (Hdb & _); pose proof (fetchData_staff X) as Hst
    end.
    rewrite Hdb. repeat (split; [done |]).
    intros Hf2. rewrite Hst by exact Hf2.
    unfold loadedStaff, Firestore.getDocs. split.
    + rewrite length_map, length_map_to_list.
      apply map_size_insert_None, fresh_string_fresh.
    + apply list_elem_of_In, in_map, list_elem_of_In, elem_of_map_to_list.
      apply lookup_insert_eq.
  - intros s i old Hsel Hid Hne Hold.
    assert (Ht : targetId w = Some (Some i)).
    { unfold targetId. rewrite Hsel, Hid. by destruct (decide (i = "")). }
    rewrite (handleSubmit_run w (Some i) Ht). unfold settles. rewrite Hf.
    cbn [perform saveCall saveVerb]. unfold Firestore.updateDoc.
    cbn [Firestore.read]. rewrite Hold.
    match goal with
    | |- context [fetchData ?X] => destruct (fetchData_frame X) as (Hdb & _)
    end.
    rewrite Hdb. split; [done |]. split; [| done].
    apply dom_insert_lookup_L. by exists old.
Qed.

Lemma handleSubmit_store_witness :
  (nextFault Sample.typed = false ∧ selectedStaff (view Sample.typed) = None
   ∧ Staff (db (handleSubmit Sample.typed).2)
     = <[Firestore.autoId (Staff (db Sample.typed)) := formData (view Sample.typed)]>
         (Staff (db Sample.typed)))
  ∧ (nextFault Sample.editing = false
     ∧ selectedStaff (view Sample.editing) = Some Sample.row
     ∧ Sample.row !! "id" = Some (VStr "s1") ∧ "s1" ≠ ""
     ∧ Staff (db Sample.editing) !! "s1" = Some Sample.ann
     ∧ dom (Staff (db (handleSubmit Sample.editing).2)) = dom (Staff (db Sample.editing))).
Proof.
  assert (Hf : nextFault Sample.typed = false) by reflexivity.
  assert (Hsel : selectedStaff (view Sample.typed) = None) by reflexivity.
  assert (Hf' : nextFault Sample.editing = false) by reflexivity.
  assert (Hsel' : selectedStaff (view Sample.editing) = Some Sample.row) by reflexivity.
  assert (Hid : Sample.row !! "id" = Some (VStr "s1")) by (vm_compute; reflexivity).
  assert (Hne : "s1" ≠ "") by discriminate.
  assert (Hold : Staff (db Sample.editing) !! "s1" = Some Sample.ann) by reflexivity.
  split.
  - split; [exact Hf |]. split; [exact Hsel |].
    exact (proj1 (proj2 (proj1 (handleSubmit_store Sample.typed Hf) Hsel))).
  - split; [exact Hf' |]. split; [exact Hsel' |]. split; [exact Hid |].
    split; [exact Hne |]. split; [exact Hold |].
    exact (proj1 (proj2 (proj2 (handleSubmit_store Sample.editing Hf')
                           Sample.row "s1" Sample.ann Hsel' Hid Hne Hold))).
Defined.

(** ** The edit workflow *)

Section EditFacts.

Implicit Types (w : World) (r : record) (edits : list (string * string)).

(** A row built from a document that has no id field of its own, or one
    that repeats its identifier, carries the identifier of the document. *)
Lemma snapshotRecord_id (i : string) (data : record) :
  data !! "id" = None ∨ data !! "id" = Some (VStr i) →
  snapshotRecord (i, data) !! "id" = Some (VStr i).
Proof.
  unfold snapshotRecord. simpl. intros [Hno | Hsame].
  - rewrite lookup_union_r by done. apply lookup_singleton_eq.
  - by apply lookup_union_Some_l.
Qed.

Lemma handleEdit_run r w :
  handleEdit r w =
  (Done tt,
   logged [ScrollTop] (withView (putSelectedStaff (Some r) (putFormData r (view w))) w)).
Proof. reflexivity. Qed.

Lemma typeAll_run edits w :
  typeAll edits w =
  (Done tt, withView (putFormData (applyEdits edits (formData (view w))) (view w)) w).
Proof.
  unfold typeAll. revert w. induction edits as [|e edits IH]; intros w.
  - by destruct w as [[] ? ? ? ? ?].
  - simpl. rewrite bind_run. unfold handleChange, setFormData, setState at 1.
    rewrite IH. reflexivity.
Qed.

Lemma applyEdits_id edits r :
  Forall (fun e => e.1 ∈ formFields) edits → applyEdits edits r !! "id" = r !! "id".
Proof.
  unfold applyEdits. intros H. revert r.
  induction H as [|e edits He _ IH]; intros r; [done |].
  simpl. rewrite IH. apply lookup_insert_ne. intros Heq. rewrite Heq in He.
  unfold formFields in He.
  repeat (apply elem_of_cons in He as [He | He]; [discriminate |]).
  by apply elem_of_nil in He.
Qed.

End EditFacts.

(** C10. A click on the edit button of a row copies the whole record of
    the row, its id property with it, into the form; whatever is then
    typed into the controls of the form, the map handed to the update call
    still holds that id, and after a successful update the stored document
    holds every property of the form, the id among them. *)
Theorem handleEdit_copies_id (w : World) (r : record) (i : string)
    (edits : list (string * string)) :
  r !! "id" = Some (VStr i) → i ≠ "" → Forall (fun e => e.1 ∈ formFields) edits →
  let w1 := (handleEdit r w).2 in
  let w2 := (typeAll edits w1).2 in
  let c := UpdateDoc StaffCol i (formData (view w2)) in
  formData (view w1) = r
  ∧ selectedStaff (view w1) = Some r
  ∧ formData (view w2) = applyEdits edits r
  ∧ formData (view w2) !! "id" = Some (VStr i)
  ∧ ∀ s', settles c w2 = Some s' →
      Call c ∈ trace (handleSubmit w2).2
      ∧ db (handleSubmit w2).2 = s'
      ∧ ∃ stored, Staff s' !! i = Some stored
          ∧ stored !! "id" = Some (VStr i)
          ∧ ∀ k v, formData (view w2) !! k = Some v → stored !! k = Some v.
Proof.
  intros Hid Hne Hedits. cbv zeta. rewrite handleEdit_run, typeAll_run. cbn [snd].
  split; [done |]. split; [done |]. split; [done |].
  assert (Hform : applyEdits edits r !! "id" = Some (VStr i)).
  { by rewrite applyEdits_id. }
  split; [exact Hform |]. intros s' Hs.
  match type of Hs with
  | settles _ ?W = _ =>
      assert (Ht : targetId W = Some (Some i));
      [unfold targetId; cbn; rewrite Hid; by destruct (decide (i = "")) |];
      rewrite (handleSubmit_run W (Some i) Ht)
  end.
  unfold saveCall. cbn [view withView logged formData putFormData] in *.
  rewrite Hs.
  match goal with
  | |- context [fetchData ?X] =>
      destruct (fetchData_frame X) as (Hdb & _ & _ & _ & _ & cs & es & Htr & _)
  end.
  rewrite Hdb, Htr. split; [| split; [done |]].
  - cbn. set_solver.
  - unfold settles, perform, Firestore.updateDoc in Hs.
    destruct (nextFault _); [done |]. cbn [Firestore.read] in Hs.
    destruct (Staff _ !! i) as [old |]; [| done]. injection Hs as <-.
    exists (applyEdits edits r ∪ old). cbn. split; [apply lookup_insert_eq |].
    split; [by apply lookup_union_Some_l |].
    intros k v Hk. by apply lookup_union_Some_l.
Qed.

Lemma handleEdit_copies_id_witness :
  Sample.row !! "id" = Some (VStr "s1") ∧ "s1" ≠ ""
  ∧ Forall (fun e : string * string => e.1 ∈ formFields) [("course", "")]
  ∧ formData (view (typeAll [("course", "")] (handleEdit Sample.row Sample.loaded).2).2)
      !! "id" = Some (VStr "s1").
Proof.
  assert (Hid : Sample.row !! "id" = Some (VStr "s1")) by (vm_compute; reflexivity).
  assert (Hne : "s1" ≠ "") by discriminate.
  assert (He : Forall (fun e : string * string => e.1 ∈ formFields) [("course", "")]).
  { constructor; [| constructor]. unfold formFields. simpl. set_solver. }
  split; [exact Hid |]. split; [exact Hne |]. split; [exact He |].
  exact (proj1 (proj2 (proj2 (proj2
           (handleEdit_copies_id Sample.loaded Sample.row "s1" [("course", "")] Hid Hne He))))).
Defined.

(** ** The form *)

Section FormFacts.

Implicit Types (w : World) (v : View) (data : record).




Lemma handleSubmit_bad_target w :
  targetId w = None → ∃ e, handleSubmit w = (Thrown e, w).
Proof.
  unfold targetId, handleSubmit. rewrite bind_run. simpl.
  destruct (selectedStaff (view w)) as [s |]; [| done].
  rewrite bind_run.
  destruct (s !! "id") as [[i |] |]; simpl; [| by eexists | by eexists].
  destruct (decide (i = "")); [by eexists | done].
Qed.




Lemma collectCourses_lookup (s : Store) (ds : list record) acc (key : string) :
  collectCourses s ds acc !! key =
  if decide (key ∈ map departmentKey ds) then Some (loadedCoursesOf s key)
  else acc !! key.
Proof.
  unfold collectCourses. revert acc. induction ds as [|d ds IH]; intros acc.
  - destruct (decide (key ∈ map departmentKey [])) as [Hin |]; [| done].
    by apply elem_of_nil in Hin.
  - cbn [foldl]. rewrite IH.
    destruct (decide (key ∈ map departmentKey ds)) as [Hin | Hin],
             (decide (key ∈ map departmentKey (d :: ds))) as [Hin' | Hin'].
    + done.
    + destruct Hin'. rewrite map_cons. apply elem_of_cons. by right.
    + rewrite map_cons in Hin'. apply elem_of_cons in Hin' as [-> | Hin']; [| done].
      apply lookup_insert_eq.
    + rewrite lookup_insert_ne; [done |]. intros <-. apply Hin'.
      rewrite map_cons. apply elem_of_cons. by left.
Qed.

Lemma fetchData_success w :
  loadSucceeds w → view (fetchData w).2 = allLoaded w ∧ departmentsKeyed (db w).
Proof.
  unfold loadSucceeds. intros Hok. rewrite fetchData_run.
  destruct (fetchBody_run w)
    as [(_ & Hb) | [(_ & _ & Hb) | (_ & _ & n & _ & [(e' & Hb) | (-> & Hk & Hb)])]];
    rewrite Hb in *; simpl in *; try discriminate.
  done.
Qed.

End FormFacts.




(** C8, as the code has it.  After a load, choosing a department whose
    Courses sub-collection is empty leaves the course selector without any
    course option, and enabled: it is disabled only while the department of
    the form is empty. *)
Theorem empty_department_course_selector (w : World) (d : string) :
  loadSucceeds w →
  d ∈ departmentOptions (view (fetchData w).2) →
  Firestore.read (CoursesCol d) (db w) = ∅ →
  let v := view (handleChange "department" d (fetchData w).2).2 in
  courseOptions v = [] ∧ courseDisabled v = false.
Proof.
  intros Hok Hd Hempty. destruct (fetchData_success w Hok) as [Hview Hkeys].
  cbv zeta. unfold handleChange, setFormData, setState. cbn [snd view].
  rewrite Hview in Hd |- *.
  unfold courseOptions, courseDisabled, departmentOptions in *.
  cbn [formData putFormData allCourses allLoaded putAllCourses departments
       departmentsLoaded putDepartments staffLoaded putStaff] in *.
  rewrite lookup_insert_eq. cbn [ToString truthy].
  change (fun department : record => ToString (department !! "id")) with departmentKey in Hd.
  unfold loadedCourses. fold (collectCourses (db w) (loadedDepartments (db w)) ∅).
  rewrite collectCourses_lookup, decide_True by exact Hd. split.
  - unfold loadedCoursesOf, Firestore.getDocs. rewrite Hempty, map_to_list_empty. done.
  - apply list_elem_of_In, in_map_iff in Hd as (dep & <- & Hdep).
    unfold departmentsKeyed in Hkeys. rewrite List.Forall_forall in Hkeys.
    specialize (Hkeys dep Hdep). rewrite negb_involutive.
    by apply String.eqb_neq.
Qed.

Lemma empty_department_course_selector_witness :
  loadSucceeds Sample.fresh
  ∧ "D2" ∈ departmentOptions (view (fetchData Sample.fresh).2)
  ∧ Firestore.read (CoursesCol "D2") (db Sample.fresh) = ∅
  ∧ courseOptions (view (handleChange "department" "D2" (fetchData Sample.fresh).2).2) = []
  ∧ courseDisabled (view (handleChange "department" "D2" (fetchData Sample.fresh).2).2)
    = false.
Proof.
  assert (H1 : loadSucceeds Sample.fresh) by (vm_compute; reflexivity).
  assert (H2 : "D2" ∈ departmentOptions (view (fetchData Sample.fresh).2)).
  { vm_compute. apply list_elem_of_further, list_elem_of_here. }
  assert (H3 : Firestore.read (CoursesCol "D2") (db Sample.fresh) = ∅)
    by (vm_compute; reflexivity).
  split; [exact H1 |]. split; [exact H2 |]. split; [exact H3 |].
  exact (empty_department_course_selector Sample.fresh "D2" H1 H2 H3).
Defined.

(** C8, as the spec states it, fails: with the department D2, which has no
    course, chosen on the loaded page, the course selector has no course
    option and is not disabled. *)
Lemma course_selector_enabled :
  let v := view (handleChange "department" "D2" Sample.loaded).2 in
  Firestore.getDocs (CoursesCol "D2") (db Sample.loaded) = []
  ∧ "D2" ∈ departmentOptions v
  ∧ courseOptions v = []
  ∧ courseDisabled v ≠ true.
Proof.
  split; [vm_compute; reflexivity |].
  split; [vm_compute; apply list_elem_of_further, list_elem_of_here |].
  split; [vm_compute; reflexivity |].
  vm_compute. discriminate.
Qed.

(** * Further properties *)

(** ** The search filter, further *)

Section FilterMore.

Implicit Types (r : record) (R : list record) (q : string).

Lemma lowerChar_idempotent (c : ascii) : Str.lowerChar (Str.lowerChar c) = Str.lowerChar c.
Proof. destruct c as [[] [] [] [] [] [] [] []]; reflexivity. Qed.

Lemma toLowerCase_idempotent q : Str.toLowerCase (Str.toLowerCase q) = Str.toLowerCase q.
Proof. induction q as [|c q IH]; simpl; [done | by rewrite lowerChar_idempotent, IH]. Qed.

Lemma Array_some_cons {A} (p : A → outcome bool) x l :
  Array_some p (x :: l) =
  match p x with
  | Thrown e => Thrown e
  | Done true => Done true
  | Done false => Array_some p l
  end.
Proof. reflexivity. Qed.

Lemma Array_some_ext {A} (p p' : A → outcome bool) l :
  (∀ x, p x = p' x) → Array_some p l = Array_some p' l.
Proof.
  intros Hp. induction l as [|x l IH]; [done |].
  by rewrite !Array_some_cons, Hp, IH.
Qed.

Lemma Array_filter_ext {A} (p p' : A → outcome bool) l :
  (∀ x, p x = p' x) → Array_filter p l = Array_filter p' l.
Proof.
  intros Hp. induction l as [|x l IH]; [done |].
  by rewrite !Array_filter_cons, Hp, IH.
Qed.

(** The rows kept are rows of the list, in its order. *)
Lemma Array_filter_sublist {A} (p : A → outcome bool) l out :
  Array_filter p l = Done out → out `sublist_of` l.
Proof.
  revert out. induction l as [|x l IH]; intros out.
  - intros [= <-]. constructor.
  - rewrite Array_filter_cons. destruct (p x) as [b | e]; [| done].
    destruct (Array_filter p l) as [out' | e]; [| done].
    intros [= <-]. destruct b; [apply sublist_skip | apply sublist_cons]; by apply IH.
Qed.

End FilterMore.

(** X1. Whatever the records, what the filter returns is a sub-list of the
    staff list: rows of the list, in the order of the list, none twice
    that was not twice in it. *)
Theorem filteredStaff_sublist (R out : list record) (q : string) :
  filteredStaff R q = Done out → out `sublist_of` R.
Proof. apply Array_filter_sublist. Qed.

Lemma filteredStaff_sublist_witness :
  filteredStaff [Sample.ann; Sample.ann] "lee" = Done [Sample.ann; Sample.ann]
  ∧ [Sample.ann; Sample.ann] `sublist_of` [Sample.ann; Sample.ann].
Proof.
  assert (H : filteredStaff [Sample.ann; Sample.ann] "lee" = Done [Sample.ann; Sample.ann])
    by reflexivity.
  split; [exact H | exact (filteredStaff_sublist _ _ _ H)].
Defined.

(** X3. The case of the query does not matter, on any list and whether the
    filter returns or throws: two queries that differ by the case of their
    letters give the same outcome, and so does a query and its lower-case
    form. *)
Theorem filteredStaff_query_case (R : list record) (q : string) :
  (∀ q', Str.toLowerCase q' = Str.toLowerCase q → filteredStaff R q' = filteredStaff R q)
  ∧ filteredStaff R (Str.toLowerCase q) = filteredStaff R q.
Proof.
  assert (H : ∀ q', Str.toLowerCase q' = Str.toLowerCase q →
                    filteredStaff R q' = filteredStaff R q).
  { intros q' Hq. rewrite !filteredStaff_unfold. apply Array_filter_ext. intros r.
    apply Array_some_ext. intros f. unfold fieldMatches. by rewrite Hq. }
  split; [exact H | apply H, toLowerCase_idempotent].
Qed.

Lemma filteredStaff_query_case_witness :
  Str.toLowerCase "TeAcH" = Str.toLowerCase "teach"
  ∧ filteredStaff [Sample.ann; Sample.bob] "TeAcH"
    = filteredStaff [Sample.ann; Sample.bob] "teach".
Proof.
  assert (H : Str.toLowerCase "TeAcH" = Str.toLowerCase "teach") by reflexivity.
  split; [exact H |].
  exact (proj1 (filteredStaff_query_case [Sample.ann; Sample.bob] "teach") "TeAcH" H).
Defined.

(** X4. The filter reads the five fields and nothing else: on two lists
    whose records agree, one by one, on firstName, lastName, position,
    department and course, it throws alike or keeps the rows of the same
    positions, whatever gender, address, mobile number or id hold. *)
Theorem filteredStaff_reads_five (R R' : list record) (q : string) :
  Forall2 sameSearchFields R R' →
  match filteredStaff R q, filteredStaff R' q with
  | Done out, Done out' => Forall2 sameSearchFields out out'
  | Thrown e, Thrown e' => e = e'
  | _, _ => False
  end.
Proof.
  rewrite !filteredStaff_unfold. induction 1 as [|r r' R R' Hr _ IH]; [constructor |].
  rewrite !Array_filter_cons.
  assert (Hsame : map (fun k => r !! k) searchFields = map (fun k => r' !! k) searchFields).
  { apply map_ext_in. intros k Hk. apply Hr. by apply list_elem_of_In. }
  rewrite Hsame. destruct (Array_some _ _) as [b | e]; [| done].
  destruct (Array_filter _ R) as [out | e], (Array_filter _ R') as [out' | e']; try done.
  destruct b; [by constructor | done].
Qed.

Lemma filteredStaff_reads_five_witness :
  Forall2 sameSearchFields [Sample.ann] [<["address" := VStr "2 High St"]> Sample.ann]
  ∧ match filteredStaff [Sample.ann] "main",
          filteredStaff [<["address" := VStr "2 High St"]> Sample.ann] "main" with
    | Done out, Done out' => Forall2 sameSearchFields out out'
    | Thrown e, Thrown e' => e = e'
    | _, _ => False
    end.
Proof.
  assert (H : Forall2 sameSearchFields [Sample.ann]
                [<["address" := VStr "2 High St"]> Sample.ann]).
  { constructor; [| constructor]. intros k Hk. symmetry. apply lookup_insert_ne.
    intros <-. unfold searchFields in Hk.
    repeat (apply elem_of_cons in Hk as [Hk | Hk]; [discriminate |]).
    by apply elem_of_nil in Hk. }
  split; [exact H | exact (filteredStaff_reads_five _ _ "main" H)].
Defined.

(** ** The data loader, further *)

Section LoaderMore.

Implicit Types (w : World).

Lemma collectCourses_dom (s : Store) (ds : list record) :
  dom (collectCourses s ds ∅) = list_to_set (map departmentKey ds).
Proof.
  apply set_eq. intros key.
  rewrite elem_of_dom, collectCourses_lookup, elem_of_list_to_set.
  destruct (decide (key ∈ map departmentKey ds)) as [Hin | Hin].
  - split; [done | by eexists].
  - rewrite lookup_empty. split; [by intros [? ?] | done].
Qed.

Lemma rowsOf_elem (m : gmap string record) (r : record) :
  r ∈ rowsOf m ↔ ∃ i data, m !! i = Some data ∧ r = snapshotRecord (i, data).
Proof.
  unfold rowsOf. rewrite list_elem_of_In, in_map_iff. split.
  - intros ([i data] & <- & Hin). exists i, data. split; [| done].
    by apply elem_of_map_to_list, list_elem_of_In.
  - intros (i & data & Hm & ->). exists (i, data). split; [done |].
    by apply list_elem_of_In, elem_of_map_to_list.
Qed.

Lemma rowsOf_length (m : gmap string record) : length (rowsOf m) = size m.
Proof. unfold rowsOf. by rewrite length_map, length_map_to_list. Qed.

Lemma snapshotRecord_has_id (d : string * record) : is_Some (snapshotRecord d !! "id").
Proof.
  unfold snapshotRecord. destruct (d.2 !! "id") as [v |] eqn:Hid.
  - exists v. by apply lookup_union_Some_l.
  - exists (VStr d.1). rewrite lookup_union_r by done. apply lookup_singleton_eq.
Qed.

End LoaderMore.

(** X5. A load only reads: whatever the store, the faults and the state, it
    returns without throwing, sends nothing but read requests, shows at
    most the one error notification of its catch block, and leaves the
    store, the form, the editing target and the search query as they
    were. *)
Theorem fetchData_only_reads (w : World) :
  let w' := (fetchData w).2 in
  (fetchData w).1 = Done tt
  ∧ db w' = db w
  ∧ formData (view w') = formData (view w)
  ∧ selectedStaff (view w') = selectedStaff (view w)
  ∧ searchQuery (view w') = searchQuery (view w)
  ∧ ∃ cs es, trace w' = trace w ++ map (fun col => Call (GetDocs col)) cs ++ es
             ∧ (es = [] ∨ es = fetchError).
Proof.
  cbv zeta. split; [apply fetchData_returns |].
  destruct (fetchData_frame w) as (? & _ & ? & ? & ? & ?). done.
Qed.

(** X6. After a load that succeeds the courses mapping has one entry for
    each department listed, and no other: its keys are the values of the
    department selector, and each holds the rows of the Courses
    sub-collection of that department. *)
Theorem fetchData_courses_keys (w : World) :
  loadSucceeds w →
  let v := view (fetchData w).2 in
  dom (allCourses v) = list_to_set (departmentOptions v)
  ∧ ∀ key, key ∈ departmentOptions v →
      allCourses v !! key = Some (rowsOf (Firestore.read (CoursesCol key) (db w))).
Proof.
  intros Hok. destruct (fetchData_success w Hok) as [Hview _]. cbv zeta.
  rewrite Hview. unfold departmentOptions.
  cbn [allCourses allLoaded putAllCourses departments departmentsLoaded putDepartments
       staffLoaded putStaff].
  change (fun department : record => ToString (department !! "id")) with departmentKey.
  unfold loadedCourses. fold (collectCourses (db w) (loadedDepartments (db w)) ∅).
  split; [apply collectCourses_dom |].
  intros key Hkey. by rewrite collectCourses_lookup, decide_True.
Qed.

Lemma fetchData_courses_keys_witness :
  loadSucceeds Sample.fresh
  ∧ dom (allCourses (view (fetchData Sample.fresh).2))
    = list_to_set (departmentOptions (view (fetchData Sample.fresh).2)).
Proof.
  assert (H : loadSucceeds Sample.fresh) by (vm_compute; reflexivity).
  split; [exact H | exact (proj1 (fetchData_courses_keys Sample.fresh H))].
Defined.

(** X7. Loading again changes nothing: when a load and the load after it
    both succeed, the state after the second is the state after the
    first. *)
Theorem fetchData_twice (w : World) :
  loadSucceeds w → loadSucceeds (fetchData w).2 →
  view (fetchData (fetchData w).2).2 = view (fetchData w).2.
Proof.
  intros H1 H2.
  destruct (fetchData_success _ H2) as [-> _].
  destruct (fetchData_success _ H1) as [Hview _].
  destruct (fetchData_frame w) as (Hdb & _).
  unfold allLoaded, departmentsLoaded, staffLoaded. rewrite Hdb, Hview. reflexivity.
Qed.

Lemma fetchData_twice_witness :
  loadSucceeds Sample.fresh ∧ loadSucceeds (fetchData Sample.fresh).2
  ∧ view (fetchData (fetchData Sample.fresh).2).2 = view (fetchData Sample.fresh).2.
Proof.
  assert (H1 : loadSucceeds Sample.fresh) by (vm_compute; reflexivity).
  assert (H2 : loadSucceeds (fetchData Sample.fresh).2) by (vm_compute; reflexivity).
  split; [exact H1 |]. split; [exact H2 | exact (fetchData_twice Sample.fresh H1 H2)].
Defined.

(** X8. Once the Staff retrieval of a load is accepted the staff list is
    the Staff collection, row by document: as many rows as documents, a row
    for each document and no other row, and every row has an id
    property. *)
Theorem fetchData_rows (w : World) :
  nextFault w = false →
  let rows := staff (view (fetchData w).2) in
  length rows = size (Staff (db w))
  ∧ (∀ r, r ∈ rows ↔ ∃ i data, Staff (db w) !! i = Some data ∧ r = snapshotRecord (i, data))
  ∧ ∀ r, r ∈ rows → is_Some (r !! "id").
Proof.
  intros Hf. cbv zeta. rewrite (fetchData_staff w Hf).
  change (loadedStaff (db w)) with (rowsOf (Staff (db w))).
  split; [apply rowsOf_length |]. split; [apply rowsOf_elem |].
  intros r (i & data & _ & ->)%rowsOf_elem. apply snapshotRecord_has_id.
Qed.

Lemma fetchData_rows_witness :
  nextFault Sample.fresh = false
  ∧ length (staff (view (fetchData Sample.fresh).2)) = size (Staff (db Sample.fresh)).
Proof.
  assert (H : nextFault Sample.fresh = false) by reflexivity.
  split; [exact H | exact (proj1 (fetchData_rows Sample.fresh H))].
Defined.

(** X9. The delete button of a row removes the document that the id
    property of the row names.  For a document that stores an id field of
    its own naming another document, it is that other document that a
    confirmed delete removes, and the document of the row stays. *)
Theorem handleDelete_follows_row_id (w : World) (i j : string) (data other : record) :
  data !! "id" = Some (VStr j) → j ≠ "" → j ≠ i →
  Staff (db w) !! j = Some other →
  nextAnswer w = true → nextFault w = false →
  let w' := (handleDelete (snapshotRecord (i, data)) w).2 in
  Staff (db w') = delete j (Staff (db w))
  ∧ Staff (db w') !! i = Staff (db w) !! i.
Proof.
  intros Hid Hj Hji Hother Hyes Hok. cbv zeta.
  assert (Hrow : snapshotRecord (i, data) !! "id" = Some (VStr j)).
  { unfold snapshotRecord. by apply lookup_union_Some_l. }
  rewrite (handleDelete_run _ j w Hrow Hj), Hyes.
  unfold settles, perform, Firestore.deleteDoc. rewrite Hok. cbn [Firestore.read].
  rewrite Hother.
  match goal with
  | |- context [fetchData ?X] => destruct (fetchData_frame X) as (-> & _)
  end.
  cbn. split; [done | by apply lookup_delete_ne].
Qed.

Lemma handleDelete_follows_row_id_witness :
  (<["id" := VStr "s1"]> Sample.bob) !! "id" = Some (VStr "s1") ∧ "s1" ≠ "" ∧ "s1" ≠ "s2"
  ∧ Staff (db Sample2.shadowConfirming) !! "s1" = Some Sample.ann
  ∧ nextAnswer Sample2.shadowConfirming = true
  ∧ nextFault Sample2.shadowConfirming = false
  ∧ Staff (db (handleDelete Sample2.shadowRow Sample2.shadowConfirming).2)
    = delete "s1" (Staff (db Sample2.shadowConfirming)).
Proof.
  assert (H1 : (<["id" := VStr "s1"]> Sample.bob) !! "id" = Some (VStr "s1"))
    by apply lookup_insert_eq.
  assert (H2 : "s1" ≠ "") by discriminate.
  assert (H3 : "s1" ≠ "s2") by discriminate.
  assert (H4 : Staff (db Sample2.shadowConfirming) !! "s1" = Some Sample.ann)
    by reflexivity.
  assert (H5 : nextAnswer Sample2.shadowConfirming = true) by reflexivity.
  assert (H6 : nextFault Sample2.shadowConfirming = false) by reflexivity.
  split; [exact H1 |]. split; [exact H2 |]. split; [exact H3 |]. split; [exact H4 |].
  split; [exact H5 |]. split; [exact H6 |].
  exact (proj1 (handleDelete_follows_row_id Sample2.shadowConfirming "s2" "s1"
                  (<["id" := VStr "s1"]> Sample.bob) Sample.ann H1 H2 H3 H4 H5 H6)).
Defined.

(** ** The form and the gateway, further *)

Section GatewayMore.

Implicit Types (w : World) (v : View).

Lemma checkValidity_empty v : formData v = emptyForm → checkValidity v = false.
Proof. unfold checkValidity. intros ->. reflexivity. Qed.

Lemma resetForm_run w : resetForm w = (Done tt, withView (resetView (view w)) w).
Proof. reflexivity. Qed.

Lemma submitForm_run w :
  submitForm w = if checkValidity (view w) then handleSubmit w else (Done tt, w).
Proof. unfold submitForm. rewrite bind_run. simpl. by destruct (checkValidity (view w)). Qed.

Lemma applyEdits_lookup (edits : list (string * string)) (data : record) (k : string) :
  applyEdits edits data !! k =
  match lastTyped k edits with
  | Some x => Some (VStr x)
  | None => data !! k
  end.
Proof.
  unfold applyEdits. revert data. induction edits as [|e edits IH]; intros data; [done |].
  cbn [foldl lastTyped]. rewrite IH. destruct (lastTyped k edits); [done |].
  destruct (decide (e.1 = k)) as [<- | Hne].
  - apply lookup_insert_eq.
  - by apply lookup_insert_ne.
Qed.

Lemma handleSubmit_db w target s' :
  targetId w = Some target → settles (saveCall w target) w = Some s' →
  db (handleSubmit w).2 = s'
  ∧ formData (view (handleSubmit w).2) = emptyForm
  ∧ staff (view (handleSubmit w).2)
    = staff (view (fetchData (saved (saveVerb target) s' (saveCall w target) w)).2).
Proof.
  intros Ht Hs. rewrite (handleSubmit_run w target Ht), Hs.
  destruct (fetchData_frame (saved (saveVerb target) s' (saveCall w target) w))
    as (-> & _ & -> & _).
  done.
Qed.

Lemma handleSubmit_calls w target :
  targetId w = Some target → Call (saveCall w target) ∈ trace (handleSubmit w).2.
Proof.
  intros Ht. rewrite (handleSubmit_run w target Ht).
  destruct (settles _ w) as [s' |].
  - destruct (reload_trace (saved (saveVerb target) s' (saveCall w target) w))
      as (cs & es & -> & _).
    cbn. set_solver.
  - cbn. set_solver.
Qed.

Lemma targetId_unusable w (s : record) :
  selectedStaff (view w) = Some s → ¬ usableId (s !! "id") → targetId w = None.
Proof.
  unfold targetId, usableId. intros -> Hno.
  destruct (s !! "id") as [[i |] |]; [| done | done].
  destruct (decide (i = "")); [done |]. destruct Hno. by exists i.
Qed.

Lemma handleDelete_declined w (r : record) :
  nextAnswer w = false →
  handleDelete r w
  = (Done tt, asked "Are you sure?" "You will not be able to recover this staff member!" w).
Proof.
  intros Hno. unfold handleDelete. by rewrite bind_run, Swal_confirm_run, Hno.
Qed.

Lemma handleDelete_unusable_run w (r : record) :
  ¬ usableId (r !! "id") → nextAnswer w = true →
  handleDelete r w
  = (Done tt,
     logged deleteError
       (asked "Are you sure?" "You will not be able to recover this staff member!" w)).
Proof.
  intros Hno Hyes. unfold handleDelete. rewrite bind_run, Swal_confirm_run, Hyes.
  unfold try_catch. rewrite bind_run. unfold usableId in Hno.
  destruct (r !! "id") as [[i |] |]; simpl; try apply caught.
  destruct (decide (i = "")); [apply caught |]. destruct Hno. by exists i.
Qed.

End GatewayMore.

(** X10. A reset, from any state, leaves the form at its empty defaults
    with no editing target and touches nothing else: no request, no
    notification, lists and store as before.  On the form it leaves, the
    course selector is disabled and a press of the submit button does
    nothing. *)
Theorem resetForm_idle (w : World) :
  let w' := (resetForm w).2 in
  w' = withView (resetView (view w)) w
  ∧ formData (view w') = emptyForm
  ∧ selectedStaff (view w') = None
  ∧ courseDisabled (view w') = true
  ∧ submitForm w' = (Done tt, w').
Proof.
  cbv zeta. rewrite resetForm_run. cbn [snd]. repeat (split; [done |]).
  rewrite submitForm_run, checkValidity_empty; done.
Qed.

(** X11. Opening a row in the form discards whatever edit was in
    progress: after an edit of one row and any typing, a click on the
    edit button of another row leaves the state that the click alone
    leaves. *)
Theorem handleEdit_discards (w : World) (r1 r2 : record) (edits : list (string * string)) :
  view (handleEdit r2 (typeAll edits (handleEdit r1 w).2).2).2 = view (handleEdit r2 w).2.
Proof. rewrite !handleEdit_run, typeAll_run. reflexivity. Qed.

(** X12. What is typed is what the form holds: after any run of typing, a
    field reads the last value typed into its control, a field not typed
    into reads as before, and nothing but the form has changed. *)
Theorem typeAll_reads_back (w : World) (edits : list (string * string)) (k : string) :
  let w' := (typeAll edits w).2 in
  formData (view w') !! k
  = match lastTyped k edits with
    | Some x => Some (VStr x)
    | None => formData (view w) !! k
    end
  ∧ w' = withView (putFormData (formData (view w')) (view w)) w.
Proof.
  cbv zeta. rewrite typeAll_run. cbn [snd]. split; [apply applyEdits_lookup | done].
Qed.

(** X13. Changing the department does not clear the course: the form keeps
    the course chosen before, and a submit that passes the required
    controls hands it to the store together with the new department. *)
Theorem department_change_keeps_course (w : World) (d : string) (target : option string) :
  let w1 := (handleChange "department" d w).2 in
  checkValidity (view w1) = true → targetId w1 = Some target →
  formData (view w1) !! "course" = formData (view w) !! "course"
  ∧ formData (view w1) !! "department" = Some (VStr d)
  ∧ Call (saveCall w1 target) ∈ trace (submitForm w1).2.
Proof.
  cbv zeta. intros Hv Ht. split; [by apply lookup_insert_ne |].
  split; [apply lookup_insert_eq |].
  rewrite submitForm_run, Hv. by apply handleSubmit_calls.
Qed.

Lemma department_change_keeps_course_witness :
  checkValidity (view (handleChange "department" "D2" Sample2.annTyped).2) = true
  ∧ targetId (handleChange "department" "D2" Sample2.annTyped).2 = Some None
  ∧ formData (view (handleChange "department" "D2" Sample2.annTyped).2) !! "course"
    = formData (view Sample2.annTyped) !! "course".
Proof.
  assert (H1 : checkValidity (view (handleChange "department" "D2" Sample2.annTyped).2)
               = true) by (vm_compute; reflexivity).
  assert (H2 : targetId (handleChange "department" "D2" Sample2.annTyped).2 = Some None)
    by reflexivity.
  split; [exact H1 |]. split; [exact H2 |].
  exact (proj1 (department_change_keeps_course Sample2.annTyped "D2" None H1 H2)).
Defined.

(** X14. After a save that the store accepted the form is empty, so a
    second press of the submit button sends nothing. *)
Theorem submitForm_after_save (w : World) (target : option string) (s' : Store) :
  targetId w = Some target → settles (saveCall w target) w = Some s' →
  submitForm (handleSubmit w).2 = (Done tt, (handleSubmit w).2).
Proof.
  intros Ht Hs. destruct (handleSubmit_db w target s' Ht Hs) as (_ & Hform & _).
  by rewrite submitForm_run, checkValidity_empty.
Qed.

Lemma submitForm_after_save_witness :
  targetId Sample.typed = Some None
  ∧ submitForm (handleSubmit Sample.typed).2 = (Done tt, (handleSubmit Sample.typed).2).
Proof.
  assert (H1 : targetId Sample.typed = Some None) by reflexivity.
  assert (S1 : settles (saveCall Sample.typed None) Sample.typed
               = Some (Firestore.addDoc StaffCol Sample.annNoCourse Sample.store).2)
    by reflexivity.
  split; [exact H1 | exact (submitForm_after_save Sample.typed None _ H1 S1)].
Defined.

(** X15. The document reference of a save is built before the try block:
    with an editing target whose id the client does not accept, the
    submit handler throws and nothing is caught; no request is sent, no
    notification shown, and the state is as it was. *)
Theorem handleSubmit_uncaught (w : World) (s : record) :
  selectedStaff (view w) = Some s → ¬ usableId (s !! "id") →
  ∃ e, handleSubmit w = (Thrown e, w).
Proof.
  intros Hsel Hno. apply handleSubmit_bad_target. by apply targetId_unusable with s.
Qed.

Lemma handleSubmit_uncaught_witness :
  selectedStaff (view Sample2.noId) = Some Sample.bob
  ∧ ¬ usableId (Sample.bob !! "id")
  ∧ ∃ e, handleSubmit Sample2.noId = (Thrown e, Sample2.noId).
Proof.
  assert (H1 : selectedStaff (view Sample2.noId) = Some Sample.bob) by reflexivity.
  assert (H2 : ¬ usableId (Sample.bob !! "id")).
  { intros (i & Hi & _). vm_compute in Hi. discriminate. }
  split; [exact H1 |]. split; [exact H2 | exact (handleSubmit_uncaught _ _ H1 H2)].
Defined.

(** X16. The document reference of a delete is built inside the try
    block: for a row whose id the client does not accept, a confirmed
    delete shows the error notification, sends no request and makes no
    load. *)
Theorem handleDelete_unusable_id (w : World) (staffMember : record) :
  ¬ usableId (staffMember !! "id") → nextAnswer w = true →
  handleDelete staffMember w
  = (Done tt,
     logged deleteError
       (asked "Are you sure?" "You will not be able to recover this staff member!" w)).
Proof. apply handleDelete_unusable_run. Qed.

Lemma handleDelete_unusable_id_witness :
  ¬ usableId (Sample.bob !! "id") ∧ nextAnswer Sample2.noId = true
  ∧ trace (handleDelete Sample.bob Sample2.noId).2 = deletePrompt :: deleteError.
Proof.
  assert (H1 : ¬ usableId (Sample.bob !! "id")).
  { intros (i & Hi & _). vm_compute in Hi. discriminate. }
  assert (H2 : nextAnswer Sample2.noId = true) by reflexivity.
  split; [exact H1 |]. split; [exact H2 |].
  rewrite (handleDelete_unusable_id Sample2.noId Sample.bob H1 H2). reflexivity.
Defined.

(** X17. A confirmed delete that the store accepts, followed by a reload
    whose Staff retrieval is accepted, leaves a staff list of one row less:
    the rows of the documents other than the deleted one. *)
Theorem handleDelete_then_rows (w : World) (staffMember old : record) (i : string) :
  staffMember !! "id" = Some (VStr i) → i ≠ "" →
  Staff (db w) !! i = Some old →
  nextAnswer w = true → nextFault w = false → hd false (tl (faults w)) = false →
  let rows := staff (view (handleDelete staffMember w).2) in
  S (length rows) = size (Staff (db w))
  ∧ ∀ r, r ∈ rows ↔
         ∃ j data, j ≠ i ∧ Staff (db w) !! j = Some data ∧ r = snapshotRecord (j, data).
Proof.
  intros Hid Hne Hold Hyes Hok Hok2. cbv zeta.
  rewrite (handleDelete_run _ i w Hid Hne), Hyes.
  unfold settles, perform, Firestore.deleteDoc. rewrite Hok. cbn [Firestore.read].
  rewrite Hold. rewrite fetchData_staff by exact Hok2.
  change (loadedStaff _) with (rowsOf (delete i (Staff (db w)))).
  split.
  - rewrite rowsOf_length, map_size_delete_Some by (by exists old).
    assert (size (Staff (db w)) ≠ 0).
    { intros Hz%map_size_empty_inv. by rewrite Hz, lookup_empty in Hold. }
    lia.
  - intros r. rewrite rowsOf_elem. split.
    + intros (j & data & (Hj & Hd)%lookup_delete_Some & ->). by exists j, data.
    + intros (j & data & Hj & Hd & ->). exists j, data.
      split; [by apply lookup_delete_Some | done].
Qed.

Lemma handleDelete_then_rows_witness :
  Sample.row !! "id" = Some (VStr "s1") ∧ "s1" ≠ ""
  ∧ Staff (db Sample.confirming) !! "s1" = Some Sample.ann
  ∧ nextAnswer Sample.confirming = true ∧ nextFault Sample.confirming = false
  ∧ hd false (tl (faults Sample.confirming)) = false
  ∧ S (length (staff (view (handleDelete Sample.row Sample.confirming).2)))
    = size (Staff (db Sample.confirming)).
Proof.
  assert (H1 : Sample.row !! "id" = Some (VStr "s1")) by (vm_compute; reflexivity).
  assert (H2 : "s1" ≠ "") by discriminate.
  assert (H3 : Staff (db Sample.confirming) !! "s1" = Some Sample.ann) by reflexivity.
  assert (H4 : nextAnswer Sample.confirming = true) by reflexivity.
  assert (H5 : nextFault Sample.confirming = false) by reflexivity.
  assert (H6 : hd false (tl (faults Sample.confirming)) = false) by reflexivity.
  split; [exact H1 |]. split; [exact H2 |]. split; [exact H3 |]. split; [exact H4 |].
  split; [exact H5 |]. split; [exact H6 |].
  exact (proj1 (handleDelete_then_rows Sample.confirming Sample.row Sample.ann "s1"
                  H1 H2 H3 H4 H5 H6)).
Defined.

(** X18. An update that the store accepts, followed by a reload whose
    Staff retrieval is accepted, leaves a staff list of the same length:
    the row of the updated document, holding the submitted fields over the
    fields it had, and the rows of the other documents. *)
Theorem handleSubmit_update_then_rows (w : World) (s old : record) (i : string) :
  selectedStaff (view w) = Some s → s !! "id" = Some (VStr i) → i ≠ "" →
  Staff (db w) !! i = Some old →
  nextFault w = false → hd false (tl (faults w)) = false →
  let rows := staff (view (handleSubmit w).2) in
  length rows = size (Staff (db w))
  ∧ ∀ r, r ∈ rows ↔
         r = snapshotRecord (i, formData (view w) ∪ old)
         ∨ ∃ j data, j ≠ i ∧ Staff (db w) !! j = Some data ∧ r = snapshotRecord (j, data).
Proof.
  intros Hsel Hid Hne Hold Hok Hok2. cbv zeta.
  assert (Ht : targetId w = Some (Some i)).
  { unfold targetId. rewrite Hsel, Hid. by destruct (decide (i = "")). }
  assert (Hs : settles (saveCall w (Some i)) w
               = Some (Firestore.write StaffCol
                         (<[i := formData (view w) ∪ old]> (Staff (db w))) (db w))).
  { unfold settles, saveCall, perform, Firestore.updateDoc. rewrite Hok.
    cbn [Firestore.read]. by rewrite Hold. }
  destruct (handleSubmit_db w (Some i) _ Ht Hs) as (_ & _ & ->).
  rewrite fetchData_staff by exact Hok2.
  change (loadedStaff _) with (rowsOf (<[i := formData (view w) ∪ old]> (Staff (db w)))).
  split.
  - rewrite rowsOf_length. apply map_size_insert_Some. by exists old.
  - intros r. rewrite rowsOf_elem. split.
    + intros (j & data & [[<- <-] | [Hj Hd]]%lookup_insert_Some & ->); [by left |].
      right. by exists j, data.
    + intros [-> | (j & data & Hj & Hd & ->)].
      * exists i, (formData (view w) ∪ old). split; [apply lookup_insert_eq | done].
      * exists j, data. split; [| done]. apply lookup_insert_Some. right. by split.
Qed.

Lemma handleSubmit_update_then_rows_witness :
  selectedStaff (view Sample2.editingAnn) = Some Sample.row
  ∧ Sample.row !! "id" = Some (VStr "s1") ∧ "s1" ≠ ""
  ∧ Staff (db Sample2.editingAnn) !! "s1" = Some Sample.ann
  ∧ nextFault Sample2.editingAnn = false
  ∧ hd false (tl (faults Sample2.editingAnn)) = false
  ∧ length (staff (view (handleSubmit Sample2.editingAnn).2))
    = size (Staff (db Sample2.editingAnn)).
Proof.
  assert (H1 : selectedStaff (view Sample2.editingAnn) = Some Sample.row) by reflexivity.
  assert (H2 : Sample.row !! "id" = Some (VStr "s1")) by (vm_compute; reflexivity).
  assert (H3 : "s1" ≠ "") by discriminate.
  assert (H4 : Staff (db Sample2.editingAnn) !! "s1" = Some Sample.ann) by reflexivity.
  assert (H5 : nextFault Sample2.editingAnn = false) by reflexivity.
  assert (H6 : hd false (tl (faults Sample2.editingAnn)) = false) by reflexivity.
  split; [exact H1 |]. split; [exact H2 |]. split; [exact H3 |]. split; [exact H4 |].
  split; [exact H5 |]. split; [exact H6 |].
  exact (proj1 (handleSubmit_update_then_rows Sample2.editingAnn Sample.row Sample.ann "s1"
                  H1 H2 H3 H4 H5 H6)).
Defined.

(** X19. A save that the store rejects can be retried as it is: the failed
    attempt leaves state and store untouched, and a second press, once the
    store answers, writes to the store exactly what the first attempt would
    have written had it been accepted. *)
Theorem handleSubmit_retry (w : World) (target : option string) :
  targetId w = Some target → nextFault w = true → hd false (tl (faults w)) = false →
  let w1 := (handleSubmit w).2 in
  view w1 = view w ∧ db w1 = db w
  ∧ db (handleSubmit w1).2 = db (handleSubmit (withFaults (tl (faults w)) w)).2.
Proof.
  intros Ht Hf Hf2. cbv zeta.
  assert (H1 : handleSubmit w = (Done tt, logged saveError (sent (saveCall w target) w))).
  { rewrite (handleSubmit_run w target Ht). unfold settles. by rewrite Hf. }
  rewrite H1. cbn [snd]. split; [done |]. split; [done |].
  rewrite (handleSubmit_run (logged saveError (sent (saveCall w target) w)) target Ht).
  rewrite (handleSubmit_run (withFaults (tl (faults w)) w) target Ht).
  unfold settles, nextFault. cbn [faults logged sent withFaults db]. rewrite Hf2.
  change (saveCall (logged _ _) target) with (saveCall w target).
  change (saveCall (withFaults _ _) target) with (saveCall w target).
  destruct (perform (saveCall w target) (db w)) as [s' |]; [| done].
  repeat match goal with
         | |- context [fetchData ?X] =>
             destruct (fetchData_frame X) as (-> & _)
         end.
  reflexivity.
Qed.

Lemma handleSubmit_retry_witness :
  targetId Sample2.flaky = Some None ∧ nextFault Sample2.flaky = true
  ∧ hd false (tl (faults Sample2.flaky)) = false
  ∧ view (handleSubmit Sample2.flaky).2 = view Sample2.flaky.
Proof.
  assert (H1 : targetId Sample2.flaky = Some None) by reflexivity.
  assert (H2 : nextFault Sample2.flaky = true) by reflexivity.
  assert (H3 : hd false (tl (faults Sample2.flaky)) = false) by reflexivity.
  split; [exact H1 |]. split; [exact H2 |]. split; [exact H3 |].
  exact (proj1 (handleSubmit_retry Sample2.flaky None H1 H2 H3)).
Defined.

(** X23. When the store accepts a save and then rejects the first read of
    the reload, the user is shown the success notification followed by the
    error notification of the loader; the store holds the write and the
    form is reset, but the lists on screen are the stale ones of before the
    save. *)
Theorem handleSubmit_reload_fails (w : World) (target : option string) (s' : Store) :
  targetId w = Some target → settles (saveCall w target) w = Some s' →
  hd false (tl (faults w)) = true →
  let w' := (handleSubmit w).2 in
  db w' = s'
  ∧ view w' = resetView (view w)
  ∧ trace w' =
    trace w
    ++ [Call (saveCall w target);
        Alert "Success!" ("Staff has been " +:+ saveVerb target +:+ ".") "success";
        Call (GetDocs StaffCol)]
    ++ fetchError.
Proof.
  intros Ht Hs Hf. cbv zeta. rewrite (handleSubmit_run w target Ht), Hs.
  rewrite fetchData_run.
  destruct (fetchBody_run (saved (saveVerb target) s' (saveCall w target) w))
    as [(_ & ->) | [(Hf' & _) | (Hf' & _)]].
  - cbn. by rewrite <- !app_assoc.
  - unfold nextFault in Hf'. cbn in Hf'. congruence.
  - unfold nextFault in Hf'. cbn in Hf'. congruence.
Qed.

Lemma handleSubmit_reload_fails_witness :
  targetId (withFaults [false; true] Sample.typed) = Some None
  ∧ hd false (tl (faults (withFaults [false; true] Sample.typed))) = true
  ∧ view (handleSubmit (withFaults [false; true] Sample.typed)).2
    = resetView (view (withFaults [false; true] Sample.typed)).
Proof.
  assert (H1 : targetId (withFaults [false; true] Sample.typed) = Some None) by reflexivity.
  assert (S1 : settles (saveCall (withFaults [false; true] Sample.typed) None)
                 (withFaults [false; true] Sample.typed)
               = Some (Firestore.addDoc StaffCol Sample.annNoCourse Sample.store).2)
    by reflexivity.
  assert (H3 : hd false (tl (faults (withFaults [false; true] Sample.typed))) = true)
    by reflexivity.
  split; [exact H1 |]. split; [exact H3 |].
  exact (proj1 (proj2 (handleSubmit_reload_fails _ None _ H1 S1 H3))).
Defined.

(** ** The schedule page *)

Section ScheduleFacts.

Implicit Types (p : Schedule.Page).

Lemma schedule_bind_run {A B} (m : Schedule.P A) (k : A → Schedule.P B) p :
  (m ≫= k) p =
  match m p with
  | (Done a, p') => k a p'
  | (Thrown e, p') => (Thrown e, p')
  end.
Proof. reflexivity. Qed.

Lemma fetchCollection_run (c : collectionRef) p :
  Schedule.fetchCollection c p =
  (if hd false (Schedule.faults p) then Thrown FirebaseError
   else Done (rowsOf (Firestore.read c (Schedule.store p))),
   Schedule.mkPage (Schedule.courses p) (Schedule.store p) (tl (Schedule.faults p))
     (Schedule.trace p ++ [Call (GetDocs c)])
     (Schedule.frames p ++ [Schedule.courses p]) (Schedule.routes p)).
Proof.
  unfold Schedule.fetchCollection. rewrite schedule_bind_run. unfold Schedule.getDocs.
  by destruct (hd false (Schedule.faults p)).
Qed.

End ScheduleFacts.

(** X20. The load of the schedule page is all or nothing, and silent.  It
    reads the Courses of Board Courses, then those of Non-Board Courses;
    when both reads are accepted it sets the list to the rows of the first
    followed by the rows of the second, and when one is rejected it reads
    no further and leaves the list as it was.  It never throws, never
    shows a notification (a failure is only logged to the console), and
    while it runs the page shows the list of before. *)
Theorem fetchCourses_all_or_nothing (p : Schedule.Page) :
  let p' := (Schedule.fetchCourses p).2 in
  let board := CoursesCol "Board Courses" in
  let nonBoard := CoursesCol "Non-Board Courses" in
  let f1 := hd false (Schedule.faults p) in
  let f2 := hd false (tl (Schedule.faults p)) in
  (Schedule.fetchCourses p).1 = Done tt
  ∧ Schedule.store p' = Schedule.store p
  ∧ Schedule.courses p' =
    (if f1 || f2 then Schedule.courses p
     else rowsOf (Firestore.read board (Schedule.store p))
          ++ rowsOf (Firestore.read nonBoard (Schedule.store p)))
  ∧ Schedule.trace p' =
    Schedule.trace p
    ++ Call (GetDocs board)
       :: (if f1 then [ConsoleError "Error fetching courses:"]
           else Call (GetDocs nonBoard)
                :: (if f2 then [ConsoleError "Error fetching courses:"] else []))
  ∧ Schedule.frames p' =
    Schedule.frames p
    ++ (if f1 then [Schedule.courses p] else [Schedule.courses p; Schedule.courses p]).
Proof.
  cbv zeta. unfold Schedule.fetchCourses, Schedule.try_catch.
  rewrite schedule_bind_run, fetchCollection_run.
  destruct (hd false (Schedule.faults p)) eqn:Hf1.
  - cbn. by rewrite <- !app_assoc.
  - rewrite schedule_bind_run, fetchCollection_run. cbn [Schedule.faults].
    destruct (hd false (tl (Schedule.faults p))) eqn:Hf2.
    + cbn. by rewrite <- !app_assoc.
    + cbn. by rewrite <- !app_assoc.
Qed.

(** X21. The two pages read the same sub-collections: for a store whose
    departments include Board Courses and Non-Board Courses, the list of
    the schedule page after its load is what the staff page, after a load
    of its own that succeeds, holds in its courses mapping under these two
    departments, one after the other. *)
Theorem fetchCourses_agrees_with_staff_page (p : Schedule.Page) (w : World) :
  Schedule.store p = db w →
  hd false (Schedule.faults p) = false → hd false (tl (Schedule.faults p)) = false →
  loadSucceeds w →
  let v := view (fetchData w).2 in
  "Board Courses" ∈ departmentOptions v → "Non-Board Courses" ∈ departmentOptions v →
  Some (Schedule.courses (Schedule.fetchCourses p).2)
  = (board ← allCourses v !! "Board Courses";
     nonBoard ← allCourses v !! "Non-Board Courses";
     Some (board ++ nonBoard)).
Proof.
  intros Hdb Hf1 Hf2 Hok. cbv zeta. intros Hb Hn.
  destruct (fetchData_success w Hok) as [Hview _].
  assert (Hkeys : ∀ key, key ∈ departmentOptions (view (fetchData w).2) →
                         allCourses (view (fetchData w).2) !! key
                         = Some (rowsOf (Firestore.read (CoursesCol key) (db w)))).
  { rewrite Hview. unfold departmentOptions.
    cbn [allCourses allLoaded putAllCourses departments departmentsLoaded putDepartments
         staffLoaded putStaff].
    change (fun department : record => ToString (department !! "id")) with departmentKey.
    unfold loadedCourses. fold (collectCourses (db w) (loadedDepartments (db w)) ∅).
    intros key Hkey. by rewrite collectCourses_lookup, decide_True. }
  rewrite (Hkeys _ Hb), (Hkeys _ Hn). cbn [mbind option_bind].
  unfold Schedule.fetchCourses, Schedule.try_catch.
  rewrite schedule_bind_run, fetchCollection_run, Hf1.
  rewrite schedule_bind_run, fetchCollection_run. cbn [Schedule.faults]. rewrite Hf2.
  cbn. by rewrite Hdb.
Qed.

Lemma fetchCourses_agrees_with_staff_page_witness :
  Schedule.store Sample2.schedulePage = db Sample2.staffPage
  ∧ hd false (Schedule.faults Sample2.schedulePage) = false
  ∧ hd false (tl (Schedule.faults Sample2.schedulePage)) = false
  ∧ loadSucceeds Sample2.staffPage
  ∧ "Board Courses" ∈ departmentOptions (view (fetchData Sample2.staffPage).2)
  ∧ "Non-Board Courses" ∈ departmentOptions (view (fetchData Sample2.staffPage).2)
  ∧ Some (Schedule.courses (Schedule.fetchCourses Sample2.schedulePage).2)
    = (board ← allCourses (view (fetchData Sample2.staffPage).2) !! "Board Courses";
       nonBoard ← allCourses (view (fetchData Sample2.staffPage).2) !! "Non-Board Courses";
       Some (board ++ nonBoard)).
Proof.
  assert (H1 : Schedule.store Sample2.schedulePage = db Sample2.staffPage) by reflexivity.
  assert (H2 : hd false (Schedule.faults Sample2.schedulePage) = false) by reflexivity.
  assert (H3 : hd false (tl (Schedule.faults Sample2.schedulePage)) = false) by reflexivity.
  assert (H4 : loadSucceeds Sample2.staffPage) by (vm_compute; reflexivity).
  assert (H5 : "Board Courses" ∈ departmentOptions (view (fetchData Sample2.staffPage).2)).
  { vm_compute. apply list_elem_of_further, list_elem_of_here. }
  assert (H6 : "Non-Board Courses"
               ∈ departmentOptions (view (fetchData Sample2.staffPage).2)).
  { vm_compute. apply list_elem_of_here. }
  split; [exact H1 |]. split; [exact H2 |]. split; [exact H3 |]. split; [exact H4 |].
  split; [exact H5 |]. split; [exact H6 |].
  exact (fetchCourses_agrees_with_staff_page Sample2.schedulePage Sample2.staffPage
           H1 H2 H3 H4 H5 H6).
Defined.

(** ** Sessions *)

Section SessionFacts.

Implicit Types (w : World) (data r : record).

Lemma formShaped_searchable r : formShaped r → searchable r.
Proof.
  intros H k Hk. apply H. unfold searchFields in Hk. unfold formFields.
  repeat (apply elem_of_cons in Hk as [-> | Hk]; [set_solver |]).
  by apply elem_of_nil in Hk.
Qed.

Lemma formShaped_empty : formShaped emptyForm.
Proof.
  intros k Hk. unfold formFields in Hk.
  repeat (apply elem_of_cons in Hk as [-> | Hk]; [by exists "" |]).
  by apply elem_of_nil in Hk.
Qed.

Lemma formShaped_insert data (k x : string) :
  formShaped data → formShaped (<[k := VStr x]> data).
Proof.
  intros H k' Hk'. destruct (decide (k = k')) as [<- | Hne].
  - exists x. apply lookup_insert_eq.
  - destruct (H k' Hk') as [s Hs]. exists s. by rewrite lookup_insert_ne.
Qed.

Lemma formShaped_union data old : formShaped data → formShaped (data ∪ old).
Proof.
  intros H k Hk. destruct (H k Hk) as [s Hs]. exists s. by apply lookup_union_Some_l.
Qed.

Lemma formShaped_snapshot (i : string) data : formShaped data → formShaped (snapshotRecord (i, data)).
Proof. apply formShaped_union. Qed.

Lemma formShaped_rows (m : gmap string record) :
  map_Forall (fun _ data => formShaped data) m → Forall formShaped (rowsOf m).
Proof.
  intros Hm. apply Forall_forall. intros r (i & data & Hi & ->)%rowsOf_elem.
  apply formShaped_snapshot. by apply (Hm i).
Qed.

(** The staff list after a load is the one of before or the rows of the
    Staff collection. *)
Lemma fetchData_staff_cases w :
  staff (view (fetchData w).2) = staff (view w)
  ∨ staff (view (fetchData w).2) = rowsOf (Staff (db w)).
Proof.
  destruct (nextFault w) eqn:Hf.
  - left. rewrite fetchData_run.
    destruct (fetchBody_run w) as [(_ & ->) | [(Hf' & _) | (Hf' & _)]];
      [done | congruence | congruence].
  - right. by apply fetchData_staff.
Qed.

Lemma fetchData_shaped w : shaped w → shaped (fetchData w).2.
Proof.
  intros (Hdb & Hform & Hrows).
  destruct (fetchData_frame w) as (Hdb' & _ & Hform' & _).
  unfold shaped. rewrite Hdb', Hform'. split; [done |]. split; [done |].
  destruct (fetchData_staff_cases w) as [-> | ->]; [done | by apply formShaped_rows].
Qed.

(** A world that differs from a shaped one by what it logged, by its
    scripts and by the state outside form and staff list. *)
Lemma shaped_same w w' :
  db w' = db w → formData (view w') = formData (view w) →
  staff (view w') = staff (view w) → shaped w → shaped w'.
Proof. unfold shaped. by intros -> -> ->. Qed.

Lemma shaped_saved w verb (s' : Store) c :
  map_Forall (fun _ data => formShaped data) (Staff s') →
  shaped w → shaped (saved verb s' c w).
Proof.
  intros Hs' (_ & _ & Hrows). split; [done |]. split; [apply formShaped_empty | done].
Qed.

Lemma handleSubmit_shaped w : shaped w → shaped (handleSubmit w).2.
Proof.
  intros Hw. destruct (targetId w) as [target |] eqn:Ht.
  - rewrite (handleSubmit_run w target Ht).
    destruct (settles _ w) as [s' |] eqn:Hs; [| by apply (shaped_same w)].
    apply fetchData_shaped, shaped_saved; [| done].
    destruct Hw as (Hdb & Hform & _).
    unfold settles in Hs. destruct (nextFault w); [done |].
    destruct target as [i |]; cbn in Hs.
    + unfold Firestore.updateDoc in Hs. cbn in Hs.
      destruct (Staff (db w) !! i) as [old |]; [| done]. injection Hs as <-. cbn.
      apply map_Forall_insert_2; [by apply formShaped_union | done].
    + injection Hs as <-. cbn. by apply map_Forall_insert_2.
  - destruct (handleSubmit_bad_target w Ht) as [e ->]. done.
Qed.

Lemma handleDelete_shaped w r : shaped w → shaped (handleDelete r w).2.
Proof.
  intros Hw. destruct (nextAnswer w) eqn:Hyes.
  2: { rewrite handleDelete_declined by done. by apply (shaped_same w). }
  assert (Hcases : usableId (r !! "id") ∨ ¬ usableId (r !! "id")).
  { unfold usableId. destruct (r !! "id") as [[i |] |].
    - destruct (decide (i = "")) as [-> | Hne]; [right | left; by exists i].
      intros (j & [= <-] & Hj). done.
    - right. by intros (j & ? & _).
    - right. by intros (j & ? & _). }
  destruct Hcases as [(i & Hid & Hne) | Hno].
  2: { rewrite handleDelete_unusable_run by done. by apply (shaped_same w). }
  rewrite (handleDelete_run r i w Hid Hne), Hyes.
  destruct (settles _ w) as [s' |] eqn:Hs; [| by apply (shaped_same w)].
  apply fetchData_shaped. destruct Hw as (Hdb & Hform & Hrows).
  split; [| by split]. cbn.
  unfold settles, perform, Firestore.deleteDoc in Hs. destruct (nextFault w); [done |].
  cbn in Hs. destruct (Staff (db w) !! i); [| done]. injection Hs as <-. cbn.
  by apply map_Forall_delete.
Qed.

Lemma dispatch_shaped (a : action) w : shaped w → shaped (dispatch a w).2.
Proof.
  intros Hw. destruct a as [field value | query | | | n | n]; cbn [dispatch].
  - destruct Hw as (Hdb & Hform & Hrows). split; [done |]. split; [| done].
    by apply formShaped_insert.
  - by apply (shaped_same w).
  - rewrite submitForm_run. destruct (checkValidity (view w)); [| done].
    by apply handleSubmit_shaped.
  - destruct Hw as (Hdb & Hform & Hrows). split; [done |].
    split; [apply formShaped_empty | done].
  - rewrite bind_run. cbn. destruct (staff (view w) !! n) as [row |] eqn:Hrow; [| done].
    destruct Hw as (Hdb & Hform & Hrows). split; [done |]. split; [| done].
    cbn. rewrite Forall_lookup in Hrows. by apply (Hrows n).
  - rewrite bind_run. cbn. destruct (staff (view w) !! n) as [row |]; [| done].
    by apply handleDelete_shaped.
Qed.

Lemma session_shaped (actions : list action) w : shaped w → shaped (session actions w).
Proof.
  revert w. induction actions as [|a actions IH]; intros w Hw; [done |].
  cbn. by apply IH, dispatch_shaped.
Qed.

Lemma mount_shaped (s : Store) (fs answers : list bool) :
  map_Forall (fun _ data => formShaped data) (Staff s) → shaped (mount s fs answers).
Proof.
  intros Hs. apply fetchData_shaped. split; [done |].
  split; [apply formShaped_empty | constructor].
Qed.

End SessionFacts.

(** X22. On a store whose staff documents all hold a string in each of the
    eight fields of the form, the table never fails: whatever the user
    then does on the page, in whatever order, with whatever faults of the
    store, every document, the form and every row keep that shape, and the
    filter returns on the staff list for the query in the search box. *)
Theorem session_table_never_throws (s : Store) (fs answers : list bool)
    (actions : list action) :
  map_Forall (fun _ data => formShaped data) (Staff s) →
  let w := session actions (mount s fs answers) in
  shaped w ∧ ∃ out, filteredStaff (staff (view w)) (searchQuery (view w)) = Done out.
Proof.
  intros Hs. cbv zeta.
  assert (Hw : shaped (session actions (mount s fs answers))).
  { by apply session_shaped, mount_shaped. }
  split; [exact Hw |]. destruct Hw as (_ & _ & Hrows).
  destruct (filter_selects (staff (view (session actions (mount s fs answers))))
              (searchQuery (view (session actions (mount s fs answers)))))
    as (out & Hout & _).
  - eapply Forall_impl; [exact Hrows | apply formShaped_searchable].
  - by exists out.
Qed.

Lemma session_table_never_throws_witness :
  map_Forall (fun _ data => formShaped data) (Staff Sample.store)
  ∧ ∃ out,
      filteredStaff
        (staff (view (session [TypeIn "firstName" "Zed"; PressSubmit; Search "zed";
                               PressDelete 0]
                        (mount Sample.store [] [true]))))
        (searchQuery (view (session [TypeIn "firstName" "Zed"; PressSubmit; Search "zed";
                                     PressDelete 0]
                              (mount Sample.store [] [true]))))
      = Done out.
Proof.
  assert (H : map_Forall (fun _ data => formShaped data) (Staff Sample.store)).
  { apply map_Forall_singleton. intros k Hk. unfold formFields in Hk.
    repeat (apply elem_of_cons in Hk as [-> | Hk]; [eexists; vm_compute; reflexivity |]).
    by apply elem_of_nil in Hk. }
  split; [exact H |].
  exact (proj2 (session_table_never_throws Sample.store [] [true]
                  [TypeIn "firstName" "Zed"; PressSubmit; Search "zed"; PressDelete 0] H)).
Defined.

(** ** The filter on strings of any code units *)

Section JsFilterFacts.

Context {U : Type} `{EqDecision U}.

Variable toLowerCase : list U → list U.

Implicit Types (s t q : list U) (r : gmap string (Js.value U))
  (R : list (gmap string (Js.value U))).

Lemma Js_startsWith_spec s t : Js.startsWith s t = true ↔ ∃ b, s = t ++ b.
Proof.
  revert s. induction t as [|c t IH]; intros s.
  - split; [by exists s | by destruct s].
  - destruct s as [|d s]; cbn [Js.startsWith].
    + split; [done | by intros [b ?]].
    + destruct (decide (d = c)) as [-> | Hne].
      * rewrite IH. split; intros [b Hb]; exists b; cbn in *; congruence.
      * split; [done | intros [b Hb]; cbn in Hb; congruence].
Qed.

Lemma Js_includes_spec s t : Js.includes s t = true ↔ ∃ a b, s = a ++ t ++ b.
Proof.
  induction s as [|d s IH]; cbn [Js.includes].
  - rewrite orb_false_r, Js_startsWith_spec. split.
    + intros [b Hb]. by exists [], b.
    + intros (a & b & Hab). destruct a; [by exists b | done].
  - rewrite orb_true_iff, Js_startsWith_spec, IH. split.
    + intros [[b Hb] | (a & b & Hab)]; [by exists [], b |].
      exists (d :: a), b. cbn. by rewrite Hab.
    + intros (a & b & Hab). destruct a as [|c a]; [left; by exists b |].
      right. exists a, b. cbn in Hab. congruence.
Qed.

Lemma Js_includes_trans s t q :
  Js.includes s t = true → Js.includes t q = true → Js.includes s q = true.
Proof.
  rewrite !Js_includes_spec. intros (a1 & a2 & ->) (b1 & b2 & ->).
  exists (a1 ++ b1), (b2 ++ a2). by rewrite <- !app_assoc.
Qed.

Lemma Js_filteredStaff_unfold R q :
  Js.filteredStaff toLowerCase R q =
  Array_filter
    (fun r => Array_some (Js.fieldMatches toLowerCase q) (map (fun k => r !! k) searchFields))
    R.
Proof. reflexivity. Qed.

(** On fields that are strings [some] returns, and returns true exactly
    when the lower-case form of a field holds that of the query. *)
Lemma Js_some_strings r q (ks : list string) :
  (∀ k, k ∈ ks → ∃ s, r !! k = Some (Js.Str s)) →
  ∃ b, Array_some (Js.fieldMatches toLowerCase q) (map (fun k => r !! k) ks) = Done b
       ∧ (b = true ↔
          ∃ k s, k ∈ ks ∧ r !! k = Some (Js.Str s) ∧ Js.lowerContains toLowerCase s q).
Proof.
  induction ks as [|k ks IH]; intros Hks.
  - exists false. split; [done |]. split; [done |].
    intros (k & s & Hin & _). by apply elem_of_nil in Hin.
  - destruct (Hks k) as [s Hs]; [by apply elem_of_cons; left |].
    destruct IH as (b & Hb & Hspec).
    { intros k' Hin. apply Hks, elem_of_cons. by right. }
    rewrite map_cons, Array_some_cons. unfold Js.fieldMatches at 1. rewrite Hs.
    cbn [Js.call_toLowerCase].
    destruct (Js.includes _ _) eqn:Hinc.
    + exists true. split; [done |]. split; [intros _ | done].
      exists k, s. split; [by apply elem_of_cons; left |].
      split; [done | by apply Js_includes_spec].
    + exists b. split; [done |]. rewrite Hspec. split.
      * intros (k' & s' & Hin & Hs' & Hc). exists k', s'.
        split; [by apply elem_of_cons; right | done].
      * intros (k' & s' & [-> | Hin]%elem_of_cons & Hs' & Hc).
        -- rewrite Hs in Hs'. injection Hs' as <-.
           apply Js_includes_spec in Hc. congruence.
        -- by exists k', s'.
Qed.

Lemma Js_filter_selects R q :
  Forall Js.searchable R →
  ∃ out, Js.filteredStaff toLowerCase R q = Done out
         ∧ Selects (Js.matchesLowered toLowerCase q) R out.
Proof.
  rewrite Js_filteredStaff_unfold. induction 1 as [|r R Hr _ (out & Hout & Hsel)].
  - exists []. split; [done | constructor].
  - destruct (Js_some_strings r q searchFields Hr) as (b & Hb & Hspec).
    rewrite Array_filter_cons, Hb, Hout. destruct b.
    + exists (r :: out). split; [done |]. constructor; [| done]. by apply Hspec.
    + exists out. split; [done |]. constructor; [| done].
      intros Hm. by apply Hspec in Hm.
Qed.

(** A query with an empty lower-case form keeps every row. *)
Lemma Js_filter_empty R q :
  Forall Js.searchable R → toLowerCase q = [] → Js.filteredStaff toLowerCase R q = Done R.
Proof.
  intros HR Hq. rewrite Js_filteredStaff_unfold. induction HR as [|r R Hr _ IH]; [done |].
  destruct (Hr "firstName") as [s Hs]; [set_solver |].
  rewrite Array_filter_cons, IH. cbn [map searchFields]. rewrite Array_some_cons.
  unfold Js.fieldMatches at 1. rewrite Hs, Hq. cbn [Js.call_toLowerCase].
  by destruct (toLowerCase s).
Qed.

Lemma Selects_iff {A} (P Q : A → Prop) (l out : list A) :
  (∀ x, x ∈ l → (P x ↔ Q x)) → Selects P l out → Selects Q l out.
Proof.
  intros HPQ Hsel. induction Hsel as [| x l out Hx _ IH | x l out Hx _ IH].
  - constructor.
  - apply Selects_keep; [apply HPQ; [by apply elem_of_cons; left | done] |].
    apply IH. intros y Hy. apply HPQ, elem_of_cons. by right.
  - apply Selects_skip; [rewrite <- HPQ; [done | by apply elem_of_cons; left] |].
    apply IH. intros y Hy. apply HPQ, elem_of_cons. by right.
Qed.

(** Where the case mapping works unit by unit, the test of the code is
    containment up to case. *)
Lemma lowerContains_unitwise (P : U → Prop) (f : U → U) s q :
  (∀ t, Forall P t → toLowerCase t = map f t) → Forall P s → Forall P q →
  Js.lowerContains toLowerCase s q ↔ Js.containsUpToCase toLowerCase s q.
Proof.
  intros Hf Hs Hq. unfold Js.lowerContains, Js.containsUpToCase.
  rewrite (Hf s Hs), (Hf q Hq). split.
  - intros (a & b & Hab).
    apply map_eq_app in Hab as (a' & r' & -> & _ & Hr).
    apply map_eq_app in Hr as (u & b' & -> & Hu & _).
    exists a', u, b'. split; [done |]. rewrite <- Hu. apply Hf.
    apply Forall_app in Hs as [_ Hs]. by apply Forall_app in Hs as [Hs _].
  - intros (a & u & b & -> & Hu). exists (map f a), (map f b).
    rewrite !map_app. do 2 f_equal. rewrite <- Hu. symmetry. apply Hf.
    apply Forall_app in Hs as [_ Hs]. by apply Forall_app in Hs as [Hs _].
Qed.

Lemma matches_unitwise (P : U → Prop) (f : U → U) r q :
  (∀ t, Forall P t → toLowerCase t = map f t) → Js.within P r → Forall P q →
  Js.matchesLowered toLowerCase q r ↔ Js.matchesUpToCase toLowerCase q r.
Proof.
  intros Hf Hr Hq. unfold Js.matchesLowered, Js.matchesUpToCase.
  split; intros (k & s & Hk & Hs & Hc); exists k, s; (split; [done |]); (split; [done |]);
    by apply (lowerContains_unitwise P f s q Hf (Hr k s Hk Hs) Hq).
Qed.

(** A test that passes on a query passes on every query whose lower-case
    form is found in the lower-case form of the first, and returns where
    the first returned. *)
Lemma Js_some_shorter_query q q' (l : list (option (Js.value U))) b' :
  Js.includes (toLowerCase q') (toLowerCase q) = true →
  Array_some (Js.fieldMatches toLowerCase q') l = Done b' →
  ∃ b, Array_some (Js.fieldMatches toLowerCase q) l = Done b ∧ (b' = true → b = true).
Proof.
  intros Hq. revert b'. induction l as [|f l IH]; intros b'.
  - intros [= <-]. by exists false.
  - rewrite !Array_some_cons. unfold Js.fieldMatches at 1 3.
    destruct (Js.call_toLowerCase toLowerCase f) as [s | e]; [| done].
    destruct (Js.includes s (toLowerCase q')) eqn:H'.
    + rewrite (Js_includes_trans _ _ _ H' Hq). intros _. by exists true.
    + destruct (Js.includes s (toLowerCase q)); [intros _; by exists true |].
      apply IH.
Qed.

End JsFilterFacts.

(** [filteredStaff] is the filter on strings of 8-bit code units with the
    unit by unit case mapping [Str.lowerChar]. *)
Section Instance.

Lemma unitsOf_lower (s : string) :
  unitsOf (Str.toLowerCase s) = map Str.lowerChar (unitsOf s).
Proof. unfold unitsOf. induction s as [|c s IH]; [done |]. cbn. by rewrite IH. Qed.

Lemma startsWith_units (s t : string) :
  Js.startsWith (unitsOf s) (unitsOf t) = Str.startsWith s t.
Proof.
  revert s. induction t as [|b t IH]; intros s; [by destruct s |].
  destruct s as [|a s]; [done |]. cbn. rewrite <- IH.
  destruct (Ascii.eqb_spec a b) as [-> | Hne].
  - by rewrite decide_True.
  - by rewrite decide_False.
Qed.

Lemma includes_units (s t : string) :
  Js.includes (unitsOf s) (unitsOf t) = Str.includes s t.
Proof.
  induction s as [|a s IH].
  - cbn [unitsOf String.list_ascii_of_string Js.includes].
    change (Str.includes "" t) with (Str.startsWith "" t || false).
    by rewrite <- startsWith_units.
  - change (Str.includes (String a s) t)
      with (Str.startsWith (String a s) t || Str.includes s t).
    rewrite <- IH, <- startsWith_units. reflexivity.
Qed.

Lemma fieldMatches_asJs (q : string) (r : record) (k : string) :
  Js.fieldMatches (map Str.lowerChar) (unitsOf q) (asJs r !! k) = fieldMatches q (r !! k).
Proof.
  unfold asJs. rewrite lookup_fmap. unfold Js.fieldMatches, fieldMatches.
  destruct (r !! k) as [[s |] |]; [| done | done].
  cbn -[unitsOf Str.toLowerCase Js.includes Str.includes map].
  by rewrite <- !unitsOf_lower, includes_units.
Qed.

Lemma filteredStaff_instance (R : list record) (q : string) :
  Js.filteredStaff (map Str.lowerChar) (map asJs R) (unitsOf q) =
  match filteredStaff R q with
  | Done out => Done (map asJs out)
  | Thrown e => Thrown e
  end.
Proof.
  unfold Js.filteredStaff, filteredStaff. induction R as [|r R IH]; [done |].
  rewrite map_cons, !Array_filter_cons, IH. cbn [Array_some].
  rewrite !fieldMatches_asJs.
  destruct (fieldMatches q (r !! "firstName")) as [[] | e]; [| | done].
  - by destruct (Array_filter _ R).
  - destruct (fieldMatches q (r !! "lastName")) as [[] | e];
      [by destruct (Array_filter _ R) | | done].
    destruct (fieldMatches q (r !! "position")) as [[] | e];
      [by destruct (Array_filter _ R) | | done].
    destruct (fieldMatches q (r !! "department")) as [[] | e];
      [by destruct (Array_filter _ R) | | done].
    destruct (fieldMatches q (r !! "course")) as [[] | e];
      [by destruct (Array_filter _ R) | by destruct (Array_filter _ R) | done].
Qed.

End Instance.

(** C1, as the code has it.  On staff records (the five fields the filter
    reads are strings) and for every query the filter returns exactly the
    records of the list, in their order, in which the lower-case form of
    one of firstName, lastName, position, department, course holds the
    lower-case form of the query, whatever toLowerCase does; a query whose
    lower-case form is empty, as that of the empty query is, returns the
    list as it is.  Where toLowerCase maps code unit by code unit, as it
    does on Basic Latin and Latin-1, these are the records in which a
    field contains the query up to case. *)
Theorem filteredStaff_lowered {U : Type} `{EqDecision U} (toLowerCase : list U → list U)
    (R : list (gmap string (Js.value U))) (q : list U) :
  Forall Js.searchable R →
  ∃ out, Js.filteredStaff toLowerCase R q = Done out
    ∧ Selects (Js.matchesLowered toLowerCase q) R out
    ∧ (toLowerCase q = [] → out = R)
    ∧ ∀ (P : U → Prop) (f : U → U),
        (∀ t, Forall P t → toLowerCase t = map f t) →
        Forall (Js.within P) R → Forall P q →
        Selects (Js.matchesUpToCase toLowerCase q) R out.
Proof.
  intros HR. destruct (Js_filter_selects toLowerCase R q HR) as (out & Hout & Hsel).
  exists out. split; [done |]. split; [done |]. split.
  - intros Hq. rewrite (Js_filter_empty toLowerCase R q HR Hq) in Hout. congruence.
  - intros P f Hf HP Hq. apply (Selects_iff (Js.matchesLowered toLowerCase q)); [| done].
    intros r Hr. apply (matches_unitwise toLowerCase P f); [done | | done].
    rewrite Forall_forall in HP. by apply HP.
Qed.

Lemma filteredStaff_lowered_witness :
  Forall Js.searchable [Sample3.nikos]
  ∧ ∃ out, Js.filteredStaff Utf16.toLowerCase [Sample3.nikos] Sample3.sigma = Done out
      ∧ Selects (Js.matchesLowered Utf16.toLowerCase Sample3.sigma) [Sample3.nikos] out
      ∧ (Utf16.toLowerCase Sample3.sigma = [] → out = [Sample3.nikos])
      ∧ ∀ (P : N → Prop) (f : N → N),
          (∀ t, Forall P t → Utf16.toLowerCase t = map f t) →
          Forall (Js.within P) [Sample3.nikos] → Forall P Sample3.sigma →
          Selects (Js.matchesUpToCase Utf16.toLowerCase Sample3.sigma) [Sample3.nikos] out.
Proof.
  assert (H : Forall Js.searchable [Sample3.nikos]).
  { constructor; [| constructor]. intros k Hk. unfold searchFields in Hk.
    repeat (apply elem_of_cons in Hk as [-> | Hk]; [eexists; reflexivity |]).
    by apply elem_of_nil in Hk. }
  split; [exact H |].
  exact (filteredStaff_lowered Utf16.toLowerCase [Sample3.nikos] Sample3.sigma H).
Defined.

(** C1, as the spec states it, fails: the last name ΠΑΠΠΑΣ contains the
    query Σ as it is, let alone up to case, and the filter drops the
    record: the lower-case form of the name ends in a final sigma, ς, and
    that of the query is σ. *)
Lemma filteredStaff_final_sigma :
  Js.searchable Sample3.nikos
  ∧ Sample3.nikos !! "lastName" = Some (Js.Str Sample3.pappas)
  ∧ Sample3.pappas = [0x3A0; 0x391; 0x3A0; 0x3A0; 0x391]%N ++ Sample3.sigma ++ []
  ∧ Js.matchesUpToCase Utf16.toLowerCase Sample3.sigma Sample3.nikos
  ∧ Js.filteredStaff Utf16.toLowerCase [Sample3.nikos] Sample3.sigma = Done [].
Proof.
  split.
  { intros k Hk. unfold searchFields in Hk.
    repeat (apply elem_of_cons in Hk as [-> | Hk]; [eexists; reflexivity |]).
    by apply elem_of_nil in Hk. }
  split; [reflexivity |]. split; [reflexivity |]. split; [| reflexivity].
  exists "lastName", Sample3.pappas. split; [unfold searchFields; set_solver |].
  split; [reflexivity |].
  by exists [0x3A0; 0x391; 0x3A0; 0x3A0; 0x391]%N, Sample3.sigma, [].
Qed.

(** X2. A query keeps no row that a query found in it leaves out, where
    found means that the lower-case form of the one occurs in the
    lower-case form of the other: when the filter returns on [q'] it
    returns on such a [q] too, and the rows kept for [q'] are among the
    rows kept for [q], in the same order.  This holds whatever toLowerCase
    does and whatever the records hold. *)
Theorem filteredStaff_narrows_lowered {U : Type} `{EqDecision U}
    (toLowerCase : list U → list U) (R out' : list (gmap string (Js.value U)))
    (q q' : list U) :
  Js.includes (toLowerCase q') (toLowerCase q) = true →
  Js.filteredStaff toLowerCase R q' = Done out' →
  ∃ out, Js.filteredStaff toLowerCase R q = Done out ∧ out' `sublist_of` out.
Proof.
  intros Hq. rewrite !Js_filteredStaff_unfold.
  revert out'. induction R as [|r R IH]; intros out'.
  - intros [= <-]. by exists [].
  - rewrite !Array_filter_cons.
    destruct (Array_some (Js.fieldMatches toLowerCase q') _) as [b' | e] eqn:Hb'; [| done].
    destruct (Js_some_shorter_query toLowerCase q q' _ b' Hq Hb') as (b & -> & Hb).
    destruct (Array_filter _ R) as [rest' | e]; [| done].
    destruct (IH rest' eq_refl) as (rest & -> & Hsub).
    intros [= <-]. eexists. split; [done |].
    destruct b'; [rewrite Hb by done; by apply sublist_skip |].
    destruct b; [by apply sublist_cons | done].
Qed.

Lemma filteredStaff_narrows_lowered_witness :
  Js.includes (Utf16.toLowerCase (Utf16.units "Teach")) (Utf16.toLowerCase (Utf16.units "EA"))
  = true
  ∧ Js.filteredStaff Utf16.toLowerCase [Sample3.nikos] (Utf16.units "Teach")
    = Done [Sample3.nikos]
  ∧ ∃ out, Js.filteredStaff Utf16.toLowerCase [Sample3.nikos] (Utf16.units "EA") = Done out
      ∧ [Sample3.nikos] `sublist_of` out.
Proof.
  assert (H1 : Js.includes (Utf16.toLowerCase (Utf16.units "Teach"))
                 (Utf16.toLowerCase (Utf16.units "EA")) = true) by reflexivity.
  assert (H2 : Js.filteredStaff Utf16.toLowerCase [Sample3.nikos] (Utf16.units "Teach")
               = Done [Sample3.nikos]) by reflexivity.
  split; [exact H1 |]. split; [exact H2 |].
  exact (filteredStaff_narrows_lowered Utf16.toLowerCase [Sample3.nikos] [Sample3.nikos]
           (Utf16.units "EA") (Utf16.units "Teach") H1 H2).
Defined.

(** The case mapping at work: a final sigma, a sigma before a letter, a
    sigma alone, and a name of Basic Latin and Latin-1 letters. *)
Example toLowerCase_sigma :
  Utf16.toLowerCase Sample3.pappas = [0x3C0; 0x3B1; 0x3C0; 0x3C0; 0x3B1; 0x3C2]%N
  ∧ Utf16.toLowerCase [0x391; 0x3A3; 0x391]%N = [0x3B1; 0x3C3; 0x3B1]%N
  ∧ Utf16.toLowerCase Sample3.sigma = [0x3C3]%N
  ∧ Utf16.toLowerCase (Utf16.units "Zo") = Utf16.units "zo".
Proof. repeat split; reflexivity. Qed.
